(** * jv-analyser: the measurement pipeline of [jvanalysis.py]

    A shallow embedding of the numerical core of the script: quadrant
    correction ([fix_quadrant]), the unit normalisation of the main loop,
    the extraction of Voc, Jsc, FF and PCE ([get_parameters]) and the two
    report writers ([jv_plot], [jv_datafile]).

    Numbers are IEEE-754 binary64 values, as in Python and numpy: they are
    modelled by [spec_float] at precision 53 and maximal exponent 1024, whose
    operations round to nearest, ties to even.  A pandas data frame with the
    two float64 columns ['V'] and ['C'] is a list of rows.  Python exceptions
    are the constructors of [exn]; code that can raise returns a [result]. *)

From Stdlib Require Import ZArith List Bool String Ascii Lia ZifyBool.
From Stdlib Require Import DecimalString DecimalN.
From Stdlib Require Import Floats.SpecFloat.
Import ListNotations.

Local Open Scope Z_scope.

(** ** binary64 arithmetic *)

Module F64.

Definition prec : Z := 53.
Definition emax : Z := 1024.

Definition float : Type := spec_float.

Definition add : float -> float -> float := SFadd prec emax.
Definition sub : float -> float -> float := SFsub prec emax.
Definition mul : float -> float -> float := SFmul prec emax.
Definition div : float -> float -> float := SFdiv prec emax.
Definition opp : float -> float := SFopp.

(** Python's [==], [<], [>], [>=] on floats: every comparison with a NaN
    is false, and the two zeros are equal. *)
Definition eqb : float -> float -> bool := SFeqb.
Definition ltb : float -> float -> bool := SFltb.
Definition gtb (x y : float) : bool := SFltb y x.
Definition geb (x y : float) : bool := SFleb y x.

Definition nan : float := S754_nan.
Definition inf : float := S754_infinity false.

Definition is_nan (x : float) : bool :=
  match x with S754_nan => true | _ => false end.

Definition is_finite (x : float) : bool :=
  match x with S754_zero _ | S754_finite _ _ _ => true | _ => false end.

(** The float nearest to an integer: what Python does with the integer
    operand of a mixed expression such as [jv['V'] *= -1] or [Wmax/1000]. *)
Definition of_Z (z : Z) : float := binary_normalize prec emax z 0 false.

(** The float a decimal literal [m * 10^-k] denotes (the quotient of two
    exactly representable integers is rounded once, so this is the float
    nearest to the decimal as long as [|m|] and [10^k] are below [2^53]). *)
Definition dec (m : Z) (k : nat) : float :=
  div (of_Z m) (of_Z (10 ^ Z.of_nat k)).

(** [x] is one of the values of the binary64 format. *)
Definition valid (x : float) : bool := valid_binary prec emax x.

(** [x] is a zero, a finite number or an infinity with sign bit [s]. *)
Definition signed (s : bool) (x : float) : Prop :=
  match x with
  | S754_zero s' | S754_infinity s' | S754_finite s' _ _ => s' = s
  | S754_nan => False
  end.

(** *** Fixed-point formatting: [format(x, '.pf')]

    The exact binary value is rounded to [p] decimals, ties to even; the
    sign is printed whenever the sign bit is set, also in front of a
    result that rounds to zero. *)

Definition round_half_even (num den : Z) : Z :=
  let q := num / den in
  let r := num mod den in
  match 2 * r ?= den with
  | Lt => q
  | Gt => q + 1
  | Eq => if Z.even q then q else q + 1
  end.

(** [|x| * 10^p] rounded to an integer, for a finite [x = m * 2^e]. *)
Definition scaled (m : positive) (e : Z) (p : nat) : Z :=
  let n := Z.pos m * 10 ^ Z.of_nat p in
  if 0 <=? e then n * 2 ^ e else round_half_even n (2 ^ (- e)).

Definition digits (n : Z) : string :=
  NilZero.string_of_uint (N.to_uint (Z.to_N n)).

Fixpoint zeros (k : nat) : string :=
  match k with O => EmptyString | S k' => String "0" (zeros k') end.

Definition zfill (w : nat) (s : string) : string :=
  (zeros (w - String.length s) ++ s)%string.

Definition fixed (n : Z) (p : nat) : string :=
  match p with
  | O => digits n
  | S _ =>
      let b := 10 ^ Z.of_nat p in
      (digits (n / b) ++ "." ++ zfill p (digits (n mod b)))%string
  end.

Definition sign_prefix (s : bool) : string :=
  if s then "-"%string else EmptyString.

Definition format (x : float) (p : nat) : string :=
  match x with
  | S754_nan => "nan"%string
  | S754_infinity s => (sign_prefix s ++ "inf")%string
  | S754_zero s => (sign_prefix s ++ fixed 0 p)%string
  | S754_finite s m e => (sign_prefix s ++ fixed (scaled m e p) p)%string
  end.

End F64.

Abbreviation float := F64.float.

(** ** Python exceptions and results *)

Inductive exn : Type :=
| SystemExit (printed : string)   (* [print(printed)] followed by [exit()] *)
| IndexError
| TypeError
| ValueError.

Inductive result (A : Type) : Type :=
| Ok (a : A)
| Raise (e : exn).

Arguments Ok {A} a.
Arguments Raise {A} e.

Definition bind {A B : Type} (r : result A) (k : A -> result B) : result B :=
  match r with
  | Ok a => k a
  | Raise e => Raise e
  end.

Notation "x <- r ;; k" := (bind r (fun x => k))
  (at level 61, r at next level, right associativity).

Fixpoint mapM {A B : Type} (f : A -> result B) (l : list A) : result (list B) :=
  match l with
  | [] => Ok []
  | a :: l' => b <- f a ;; bs <- mapM f l' ;; Ok (b :: bs)
  end.

(** ** numpy

    The two functions of numpy the script calls, [numpy.interp] and
    [numpy.amax], after numpy's implementation ([arr_interp] and
    [binary_search_with_guess] of compiled_base.c). *)

Module Np.

(** Element [i] of a C array of doubles.  Every index the code below reads
    is within bounds; the default is never returned. *)
Definition at_ (arr : list float) (i : Z) : float :=
  nth (Z.to_nat i) arr F64.nan.

Definition len (arr : list float) : Z := Z.of_nat (List.length arr).

Definition LIKELY_IN_CACHE_SIZE : Z := 8.

(** [for (i = 1; i < len && key >= arr[i]; ++i); return i - 1;]
    run on the elements from index [i] on. *)
Fixpoint linear_search (key : float) (from_i : list float) (i : Z) : Z :=
  match from_i with
  | [] => i - 1
  | a :: rest =>
      if F64.geb key a then linear_search key rest (i + 1) else i - 1
  end.

(** [while (imin < imax) { imid = imin + ((imax - imin) >> 1); ... }];
    [fuel] bounds the number of iterations (see [NpFacts.bisect_fuel]). *)
Fixpoint bisect (fuel : nat) (key : float) (arr : list float)
    (imin imax : Z) : Z :=
  match fuel with
  | O => imin - 1
  | S fuel' =>
      if imin <? imax then
        let imid := imin + Z.shiftr (imax - imin) 1 in
        if F64.geb key (at_ arr imid)
        then bisect fuel' key arr (imid + 1) imax
        else bisect fuel' key arr imin imid
      else imin - 1
  end.

(** numpy's [binary_search_with_guess]: the index [j] with
    [arr[j] <= key < arr[j+1]] when [arr] is increasing, [-1] below the
    first element and [len] above the last one.  On an array that is not
    increasing it still returns, with the index its tests lead to. *)
Definition binary_search_with_guess (key : float) (arr : list float)
    (guess : Z) : Z :=
  let n := len arr in
  if F64.gtb key (at_ arr (n - 1)) then n
  else if F64.ltb key (at_ arr 0) then -1
  else if n <=? 4 then linear_search key (tl arr) 1
  else
    let guess := if guess >? n - 3 then n - 3 else guess in
    let guess := if guess <? 1 then 1 else guess in
    let search imin imax := bisect (Z.to_nat (imax - imin)) key arr imin imax in
    if F64.ltb key (at_ arr guess) then
      if F64.ltb key (at_ arr (guess - 1)) then
        let imax := guess - 1 in
        let imin :=
          if (guess >? LIKELY_IN_CACHE_SIZE)
             && F64.geb key (at_ arr (guess - LIKELY_IN_CACHE_SIZE))
          then guess - LIKELY_IN_CACHE_SIZE else 0 in
        search imin imax
      else guess - 1
    else if F64.ltb key (at_ arr (guess + 1)) then guess
    else if F64.ltb key (at_ arr (guess + 2)) then guess + 1
    else
      let imin := guess + 2 in
      let imax :=
        if (guess <? n - LIKELY_IN_CACHE_SIZE - 1)
           && F64.ltb key (at_ arr (guess + LIKELY_IN_CACHE_SIZE))
        then guess + LIKELY_IN_CACHE_SIZE else n in
      search imin imax.

(** The value numpy interpolates between the points [j] and [j+1]. *)
Definition interp_between (x : float) (xp fp : list float) (j : Z) : float :=
  let slope :=
    F64.div (F64.sub (at_ fp (j + 1)) (at_ fp j))
            (F64.sub (at_ xp (j + 1)) (at_ xp j)) in
  let r := F64.add (F64.mul slope (F64.sub x (at_ xp j))) (at_ fp j) in
  if F64.is_nan r then
    let r' := F64.add (F64.mul slope (F64.sub x (at_ xp (j + 1)))) (at_ fp (j + 1)) in
    if F64.is_nan r' && F64.eqb (at_ fp j) (at_ fp (j + 1)) then at_ fp j else r'
  else r.

(** [numpy.interp(x, xp, fp)] at one point [x], with the default [left]
    and [right] (the first and the last value of [fp]).  The two arrays
    have the same length wherever the program calls it. *)
Definition interp (x : float) (xp fp : list float) : result float :=
  match xp with
  | [] => Raise ValueError
  | [xp0] =>
      Ok (if F64.ltb x xp0 then at_ fp 0
          else if F64.gtb x xp0 then at_ fp 0 else at_ fp 0)
  | _ =>
      if F64.is_nan x then Ok x
      else
        let n := len xp in
        let j := binary_search_with_guess x xp 0 in
        if j =? -1 then Ok (at_ fp 0)
        else if j =? n then Ok (at_ fp (n - 1))
        else if j =? n - 1 then Ok (at_ fp j)
        else if F64.eqb (at_ xp j) x then Ok (at_ fp j)
        else Ok (interp_between x xp fp j)
  end.

(** The maximum of an array that holds no NaN.  Of equal elements the
    later one is kept: the reduction over [-0.0, 0.0] is [0.0], over
    [0.0, -0.0] it is [-0.0]. *)
Definition max_of (first : float) (rest : list float) : float :=
  fold_left (fun acc x => if F64.gtb acc x then acc else x) rest first.

(** [numpy.amax(s)] on a pandas Series [s]: numpy hands the reduction to
    [s.max()], which leaves the NaN entries out and is NaN when nothing
    remains. *)
Definition amax (s : list float) : float :=
  match filter (fun x => negb (F64.is_nan x)) s with
  | [] => F64.nan
  | x :: rest => max_of x rest
  end.

End Np.

(** ** pandas: the data frame of one sweep *)

(** One row of the frame read by [pandas.read_table]: the columns are named
    ['V'] and ['C'] and hold float64 values. *)
Record sample : Type := Sample { V : float; C : float }.

Definition frame : Type := list sample.

(** [jv['V']] and [jv['C']] *)
Definition col_V (jv : frame) : list float := map V jv.
Definition col_C (jv : frame) : list float := map C jv.

(** [jv.iloc[i]]: the row at position [i], or an IndexError. *)
Definition iloc (jv : frame) (i : nat) : result sample :=
  match nth_error jv i with
  | Some r => Ok r
  | None => Raise IndexError
  end.

(** [x in arr]: some element of the array equals [x]. *)
Definition contains (x : float) (arr : list float) : bool :=
  existsb (fun a => F64.eqb a x) arr.

(** [jv[jv['V'] == x].index.tolist()]: the positions of the rows, counted
    from [i], whose voltage equals [x]. *)
Fixpoint index_where_V (x : float) (jv : frame) (i : nat) : list nat :=
  match jv with
  | [] => []
  | r :: rest =>
      if F64.eqb (V r) x then i :: index_where_V x rest (S i)
      else index_where_V x rest (S i)
  end.

(** [jv.iloc[idx]['C'].values] for a list of positions *)
Definition iloc_C (jv : frame) (idx : list nat) : result (list float) :=
  rows <- mapM (iloc jv) idx ;; Ok (col_C rows).

(** [float(arr)]: only an array of one element converts to a scalar. *)
Definition float_of_array (arr : list float) : result float :=
  match arr with
  | [x] => Ok x
  | _ => Raise TypeError
  end.

(** [jv['V'] *= k], [jv['C'] *= k] and [jv['C'] / k] *)
Definition mul_V (k : float) (jv : frame) : frame :=
  map (fun r => Sample (F64.mul (V r) k) (C r)) jv.
Definition mul_C (k : float) (jv : frame) : frame :=
  map (fun r => Sample (V r) (F64.mul (C r) k)) jv.
Definition div_C (k : float) (jv : frame) : frame :=
  map (fun r => Sample (V r) (F64.div (C r) k)) jv.

(** [jv['V']*jv['C']] *)
Definition mul_VC (jv : frame) : list float :=
  map (fun r => F64.mul (V r) (C r)) jv.

(** ** The functions of jvanalysis.py *)

Definition zero : float := F64.of_Z 0.
Definition minus_one : float := F64.of_Z (-1).

Definition no_such_quadrant : string :=
  "The quadrant you provided in the configuration file does not exist.".

(** Function to move the JV curve to the first quadrant. *)
Definition fix_quadrant (jv : frame) (quadrant : Z) : result frame :=
  if quadrant =? 2 then Ok (mul_V minus_one jv)
  else if quadrant =? 3 then Ok (mul_C minus_one (mul_V minus_one jv))
  else if quadrant =? 4 then Ok (mul_C minus_one jv)
  else Raise (SystemExit no_such_quadrant).

(** The scan direction, as the comments of [get_parameters] name the two
    branches of each test on the first two voltages. *)
Inductive scan : Type := Forward | Reverse.

(** Line 37: [if jv.iloc[0]['V'] < jv.iloc[1]['V']: # Forward scan] *)
Definition Jsc_scan (r0 r1 : sample) : scan :=
  if F64.ltb (V r0) (V r1) then Forward else Reverse.

(** Line 44: [if jv.iloc[0]['V'] > jv.iloc[1]['V']: # Reverse scan] *)
Definition Voc_scan (r0 r1 : sample) : scan :=
  if F64.gtb (V r0) (V r1) then Reverse else Forward.

(** Lines 30 to 40 of [get_parameters]: Jsc is read off the sample at
    V = 0 when there is one, and interpolated otherwise. *)
Definition get_Jsc (jv : frame) : result float :=
  if contains zero (col_V jv) then
    let Jsc := index_where_V zero jv 0 in
    arr <- iloc_C jv Jsc ;;
    float_of_array arr
  else
    r0 <- iloc jv 0 ;;
    r1 <- iloc jv 1 ;;
    match Jsc_scan r0 r1 with
    | Forward => (* no modification needed *)
        Np.interp zero (col_V jv) (col_C jv)
    | Reverse => (* need to reverse the arrays *)
        Np.interp zero (rev (col_V jv)) (rev (col_C jv))
    end.

(** Lines 44 to 47: Voc is always interpolated. *)
Definition get_Voc (jv : frame) : result float :=
  r0 <- iloc jv 0 ;;
  r1 <- iloc jv 1 ;;
  match Voc_scan r0 r1 with
  | Reverse => (* no modification needed *)
      Np.interp zero (col_C jv) (col_V jv)
  | Forward => (* need to reverse the arrays *)
      Np.interp zero (rev (col_C jv)) (rev (col_V jv))
  end.

(** Line 49: the maximum power point. *)
Definition get_Wmax (jv : frame) : float := Np.amax (mul_VC jv).

(** The four values [get_parameters] holds at line 54, before it replaces
    them by strings. *)
Record parameters : Type := Parameters {
  Voc : float;
  Jsc : float;
  FF : float;
  PCE : float
}.

Definition get_parameters_values (jv : frame) : result parameters :=
  Jsc <- get_Jsc jv ;;
  Voc <- get_Voc jv ;;
  let Wmax := get_Wmax jv in
  let FF := F64.mul (F64.div Wmax (F64.mul Jsc Voc)) (F64.of_Z 100) in
  let PCE := F64.div Wmax (F64.of_Z 1000) in
  Ok (Parameters Voc Jsc FF PCE).

(** What [get_parameters] returns: the tuple [Voc,Jsc,FF,PCE] of strings. *)
Record report : Type := Report {
  Voc_str : string;
  Jsc_str : string;
  FF_str : string;
  PCE_str : string
}.

(** Lines 55 to 59: convert main parameters to strings. *)
Definition to_strings (p : parameters) : report :=
  Report (F64.format (Voc p) 0) (F64.format (Jsc p) 2)
         (F64.format (FF p) 0) (F64.format (PCE p) 2).

(** Function to calculate main cell parameters: Voc, Jsc, FF and PCE. *)
Definition get_parameters (jv : frame) : result report :=
  p <- get_parameters_values jv ;;
  Ok (to_strings p).

(** The cell text of the table under the plot: [table_values] of [jv_plot].
    Don't plot cell parameters if it's a dark scan. *)
Definition placeholder : list string := ["----"; "----"; "----"; "----"]%string.

Definition table_values (Voc Jsc FF PCE : string) : list (list string) :=
  if negb (String.eqb PCE "0.00")
  then [[Voc; Jsc; FF; PCE]]
  else [placeholder].

(** What [jv_plot] hands to matplotlib: the title, the curve and the table
    under it. *)
Record figure : Type := Figure {
  title : string;
  curve : frame;
  cellText : list (list string)
}.

Definition jv_plot (jv : frame) (filename Voc Jsc FF PCE : string) : figure :=
  Figure filename jv (table_values Voc Jsc FF PCE).

Definition nl : string := String (ascii_of_nat 10) EmptyString.
Definition tab : string := String (ascii_of_nat 9) EmptyString.

(** The first five lines [jv_datafile] writes: the main cell parameters. *)
Definition metrics_block (Voc Jsc FF PCE : string) : string :=
  ("Main cell parameters:" ++ nl ++
   "Voc (mV): " ++ Voc ++ nl ++
   "Jsc (mA cm-2): " ++ Jsc ++ nl ++
   "FF (%): " ++ FF ++ nl ++
   "PCE (%): " ++ PCE ++ nl ++ nl)%string.

(** ** Configuration and the main loop *)

(** The exponents of the units of measure ([ucurrent], [uarea],
    [uvoltage]) are integers from -18 to 18.  In this range [10**n] and
    [10**-n] are either a Python int that fits 64 bits, which numpy turns
    into the equal float, or the float power [10.0**n], the float nearest
    to [10^n].  Beyond it the column changes its dtype or the
    multiplication overflows, which is not modelled. *)
Definition unit_range (n : Z) : bool := Z.abs n <=? 18.

Record exponent : Type := Exponent {
  exponent_value : Z;
  exponent_in_range : unit_range exponent_value = true
}.

(** [-n] *)
Definition neg_exponent (n : exponent) : exponent :=
  let (v, ok) := n in
  Exponent (- v)
    (match v return unit_range v = true -> unit_range (- v) = true with
     | Z0 => fun h => h
     | Zpos _ => fun h => h
     | Zneg _ => fun h => h
     end ok).

Definition no_prefix : exponent := Exponent 0 eq_refl.

(** The entries of config.yaml the normalisation reads. *)
Record config : Type := Config {
  quadrant : Z;
  current : string;     (* 'J' when the file holds a current density *)
  carea : float;
  ucurrent : exponent;
  uarea : exponent;
  uvoltage : exponent
}.

(** [s.upper()] on ASCII letters *)
Definition upper_ascii (c : ascii) : ascii :=
  let n := nat_of_ascii c in
  if ((97 <=? n) && (n <=? 122))%nat then ascii_of_nat (n - 32) else c.

Fixpoint upper (s : string) : string :=
  match s with
  | EmptyString => EmptyString
  | String c s' => String (upper_ascii c) (upper s')
  end.

(** [10**n] as the float64 operand of the multiplication.  For
    [0 <= n <= 18] it is the Python int [10^n], below [2^63] and exactly
    representable; for [-18 <= n < 0] it is the float power, the float
    nearest to [10^n], which the one rounding of [1/10^-n] gives because
    [10^-n] is exactly representable. *)
Definition pow10 (n : exponent) : float :=
  let v := exponent_value n in
  if 0 <=? v then F64.of_Z (10 ^ v)
  else F64.div (F64.of_Z 1) (F64.of_Z (10 ^ (- v))).

(** Lines 176 to 178 of the main loop: fix the quadrant if needed. *)
Definition fix_quadrant_if_needed (cfg : config) (jvdata : frame)
  : result frame :=
  if negb (quadrant cfg =? 1)
  then fix_quadrant jvdata (quadrant cfg)
  else Ok jvdata.

(** Lines 176 to 187 of the main loop: quadrant, current density, units. *)
Definition normalize (cfg : config) (jvdata : frame) : result frame :=
  jvdata <- fix_quadrant_if_needed cfg jvdata ;;
  let jvdata :=
    if negb (String.eqb (upper (current cfg)) "J")
    then div_C (carea cfg) jvdata else jvdata in
  let jvdata :=
    if negb (exponent_value (ucurrent cfg) =? 0)
       || negb (exponent_value (uarea cfg) =? 0)
    then mul_C (pow10 (neg_exponent (uarea cfg)))
               (mul_C (pow10 (ucurrent cfg)) jvdata)
    else jvdata in
  let jvdata :=
    if negb (exponent_value (uvoltage cfg) =? 0)
    then mul_V (pow10 (uvoltage cfg)) jvdata else jvdata in
  Ok jvdata.

Section Report.

(** Python's [str] of a float (the shortest decimal that reads back as the
    same float): a function of the interpreter, left as a parameter. *)
Variable str : float -> string.

(** The list of JV data points [jv_datafile] writes after the metrics. *)
Definition data_points (jv : frame) : string :=
  ("List of JV data points:" ++ nl ++
   "V (mV)" ++ tab ++ "J (mA cm-2)" ++ nl ++
   concat EmptyString
     (map (fun row => str (V row) ++ tab ++ str (C row) ++ nl) jv))%string.

(** Function to write an output text file containing the main cell
    parameters and tab separated JV raw values: the text written. *)
Definition jv_datafile (jv : frame) (Voc Jsc FF PCE : string) : string :=
  (metrics_block Voc Jsc FF PCE ++ data_points jv)%string.

(** One turn of the main loop, from the frame read from the file to the
    two outputs. *)
Definition process_file (cfg : config) (file : string * frame)
  : result (figure * string) :=
  let (filename, jvdata) := file in
  jvdata <- normalize cfg jvdata ;;
  r <- get_parameters jvdata ;;
  let '(Report Voc Jsc FF PCE) := r in
  Ok (jv_plot jvdata filename Voc Jsc FF PCE,
      jv_datafile jvdata Voc Jsc FF PCE).

(** The main loop: an exception in one file ends the run. *)
Definition main_loop (cfg : config) (good_files : list (string * frame))
  : result (list (figure * string)) :=
  mapM (process_file cfg) good_files.

End Report.

(** ** Sweeps used below *)

(** The six-point sweep
    [(-50,5.0),(0,4.8),(50,4.0),(100,2.0),(150,0.0),(200,-3.0)]. *)
Definition six_point_sweep : frame :=
  [ Sample (F64.of_Z (-50)) (F64.dec 50 1);
    Sample (F64.of_Z 0) (F64.dec 48 1);
    Sample (F64.of_Z 50) (F64.dec 40 1);
    Sample (F64.of_Z 100) (F64.dec 20 1);
    Sample (F64.of_Z 150) (F64.dec 0 1);
    Sample (F64.of_Z 200) (F64.dec (-30) 1) ].

(** Quadrant 1, a current density on input, no unit conversion. *)
Definition plain_config : config :=
  Config 1 "J" (F64.of_Z 1) no_prefix no_prefix no_prefix.

(** A frame of integer samples. *)
Definition of_ints (l : list (Z * Z)) : frame :=
  map (fun vc => Sample (F64.of_Z (fst vc)) (F64.of_Z (snd vc))) l.

(** Two samples at V = 0: [(0,1),(0,2),(1,0)]. *)
Definition twice_zero_sweep : frame := of_ints [(0, 1); (0, 2); (1, 0)].

(** A sweep that goes up and comes back: [(-1,4),(1,3),(3,-2),(1,3)]. *)
Definition up_and_back_sweep : frame :=
  of_ints [(-1, 4); (1, 3); (3, -2); (1, 3)].

(** A sweep whose every product V*C is negative: [(-1,1),(3,-1)]. *)
Definition negative_power_sweep : frame := of_ints [(-1, 1); (3, -1)].

(** [2^-600], and a sweep whose Jsc and Voc are both [2^-600]:
    [(0,2^-600),(2^-600,0)]. *)
Definition tiny : float := S754_finite false 4503599627370496 (-652).
Definition underflow_sweep : frame := [Sample zero tiny; Sample tiny zero].

(** A sweep with one sample far out: [(0,1),(1e200,1e200),(1,0)]. *)
Definition overflow_sweep : frame :=
  [ Sample zero (F64.of_Z 1);
    Sample (F64.of_Z (10 ^ 200)) (F64.of_Z (10 ^ 200));
    Sample (F64.of_Z 1) zero ].

(** A dark sweep: [(0,0),(1,0)]. *)
Definition dark_sweep : frame := of_ints [(0, 0); (1, 0)].

(** Two sweeps that differ in the current at V = 0 only:
    [(0,4.800),(1,0)] and [(0,4.801),(1,0)]. *)
Definition sweep_4800 : frame :=
  [ Sample (F64.of_Z 0) (F64.dec 4800 3); Sample (F64.of_Z 1) (F64.of_Z 0) ].
Definition sweep_4801 : frame :=
  [ Sample (F64.of_Z 0) (F64.dec 4801 3); Sample (F64.of_Z 1) (F64.of_Z 0) ].


(** Sweeps whose first two samples share their voltage and which hold
    samples at V = 0: [(1,3),(1,1),(0,2),(2,-1)] and [(0,3),(0,1),(2,-1)]. *)
Definition stalled_measured_sweep : frame :=
  of_ints [(1, 3); (1, 1); (0, 2); (2, -1)].
Definition stalled_twice_zero_sweep : frame :=
  of_ints [(0, 3); (0, 1); (2, -1)].

(** A sweep of one sample: [(0,1)]. *)
Definition one_sample_sweep : frame := of_ints [(0, 1)].

(** Every entry of the frame is a binary64 value. *)
Definition valid_frame (jv : frame) : Prop :=
  Forall (fun r => F64.valid (V r) = true /\ F64.valid (C r) = true) jv.

(** The string does not begin with two minus signs. *)
Definition no_double_minus (s : string) : Prop :=
  exists c rest, s = String c rest /\
    (c <> "-"%char \/ exists c' rest', rest = String c' rest' /\ c' <> "-"%char).

(** Every value of the array is below the next one. *)
Fixpoint rising (arr : list float) : bool :=
  match arr with
  | a :: (b :: _) as rest => F64.ltb a b && rising rest
  | _ => true
  end.

(** A sample with its voltage, or its current, negated. *)
Definition neg_V (r : sample) : sample := Sample (F64.opp (V r)) (C r).
Definition neg_C (r : sample) : sample := Sample (V r) (F64.opp (C r)).

(** The sample lies at V = 0. *)
Definition at_zero_volt (r : sample) : bool := F64.eqb (V r) zero.

(** ** The order of binary64 values

    [key] maps the values other than NaN to triples of integers whose
    lexicographic order is the order of the floats ([compare_key] below);
    the two zeros share a key. *)

Definition key (x : float) : Z * Z * Z :=
  match x with
  | S754_infinity true => (-2, 0, 0)
  | S754_finite true m e => (-1, - e, Z.neg m)
  | S754_zero _ | S754_nan => (0, 0, 0)
  | S754_finite false m e => (1, e, Z.pos m)
  | S754_infinity false => (2, 0, 0)
  end.

Definition lex_ltb (a b : Z * Z * Z) : bool :=
  let '(a1, a2, a3) := a in
  let '(b1, b2, b3) := b in
  (a1 <? b1) || ((a1 =? b1) && ((a2 <? b2) || ((a2 =? b2) && (a3 <? b3)))).

Definition lex_eqb (a b : Z * Z * Z) : bool :=
  let '(a1, a2, a3) := a in
  let '(b1, b2, b3) := b in
  (a1 =? b1) && (a2 =? b2) && (a3 =? b3).

(** [j] is the interval of the sample points that holds [key]:
    [arr[j] <= key], and [key < arr[j+1]] unless [j] is the last index. *)
Definition bracket (key : float) (arr : list float) (j : Z) : Prop :=
  0 <= j < Np.len arr /\
  F64.geb key (Np.at_ arr j) = true /\
  (j = Np.len arr - 1 \/ F64.ltb key (Np.at_ arr (j + 1)) = true).

(** A sweep that stays in the first quadrant: [(1,5),(2,4),(3,3)]. *)
Definition partial_sweep : frame := of_ints [(1, 5); (2, 4); (3, 3)].

(** Currents in A over an area of 0.25, voltages in V: the current is
    divided by the area and scaled by [10**3], the voltage by [10**3]. *)
Definition raw_current_config : config :=
  Config 1 "i" (F64.dec 25 2) (Exponent 3 eq_refl) no_prefix (Exponent 3 eq_refl).

(** The configuration with another quadrant. *)
Definition with_quadrant (q : Z) (cfg : config) : config :=
  Config q (current cfg) (carea cfg) (ucurrent cfg) (uarea cfg) (uvoltage cfg).

(** The string holds no decimal point. *)
Fixpoint no_dot (s : string) : bool :=
  match s with
  | EmptyString => true
  | String c s' => negb (Ascii.eqb c ".") && no_dot s'
  end.

(** [x] is +0, or a positive float [m * 2^e] that is at most 1/200. *)
Definition at_most_half_a_hundredth (x : float) : Prop :=
  match x with
  | S754_zero false => True
  | S754_finite false m e => 200 * Z.pos m <= 2 ^ (- e)
  | _ => False
  end.

(** ** The files of the directory (lines 119 to 152 and 190 to 192) *)

(** [s[n:]] and [s[:n]] for [n >= 0] *)
Fixpoint str_drop (n : nat) (s : string) : string :=
  match n, s with
  | S n', String _ s' => str_drop n' s'
  | _, _ => s
  end.

Fixpoint str_take (n : nat) (s : string) : string :=
  match n, s with
  | S n', String c s' => String c (str_take n' s')
  | _, _ => EmptyString
  end.

(** [s[-k:]]: the last [k] characters, the whole string when it is
    shorter; [-0] is [0], so [s[-0:]] is [s]. *)
Definition last_chars (k : nat) (s : string) : string :=
  if (k =? 0)%nat then s else str_drop (String.length s - k) s.

(** [s[:-k]]: the string without its last [k] characters; [s[:-0]] is
    empty. *)
Definition without_last_chars (k : nat) (s : string) : string :=
  if (k =? 0)%nat then EmptyString else str_take (String.length s - k) s.

(** A string is true in a test when it is not empty (an absent [format]
    entry of the configuration counts as the empty string). *)
Definition truthy (s : string) : bool :=
  match s with EmptyString => false | _ => true end.

(** Lines 125 and 126: [if analyse_dir[-1] != '/': analyse_dir += '/'];
    indexing an empty string raises an IndexError. *)
Definition add_trailing_slash (analyse_dir : string) : result string :=
  match analyse_dir with
  | EmptyString => Raise IndexError
  | _ =>
      if negb (String.eqb (last_chars 1 analyse_dir) "/")
      then Ok (analyse_dir ++ "/")%string
      else Ok analyse_dir
  end.

Section Files.

(** [Path(p).is_dir()]: a fact of the file system. *)
Variable is_dir : string -> bool.

(** Lines 134 to 147: the files of the directory that are kept. *)
Definition good_files (analyse_dir format : string) (files : list string)
  : list string :=
  if truthy format then
    filter (fun filename =>
              negb (is_dir (analyse_dir ++ filename))
              && String.eqb (last_chars (String.length format) filename) format)
           files
  else
    filter (fun filename => negb (is_dir (analyse_dir ++ filename))) files.

End Files.

(** Lines 191 and 192: remove the file extension from the file name. *)
Definition strip_format (format filename : string) : string :=
  if truthy format
  then without_last_chars (String.length format) filename
  else filename.

(** The two files written for one input file (lines 81 and 87). *)
Definition png_path (output_dir filename : string) : string :=
  (output_dir ++ filename ++ ".png")%string.
Definition txt_path (output_dir filename : string) : string :=
  (output_dir ++ filename ++ ".txt")%string.

(** * Facts about binary64 comparison and arithmetic *)

Module F64Facts.

Lemma compare_swap (x y : float) :
  SFcompare y x = option_map CompOpp (SFcompare x y).
Proof.
  destruct x as [sx|sx| |sx mx ex], y as [sy|sy| |sy my ey]; simpl;
    try reflexivity;
    try (destruct sx; reflexivity); try (destruct sy; reflexivity);
    try (destruct sx, sy; reflexivity).
  assert (Hm : Pos.compare_cont Eq my mx = CompOpp (Pos.compare_cont Eq mx my))
    by (rewrite Pos.compare_cont_antisym; reflexivity).
  rewrite (Z.compare_antisym ex ey), Hm.
  destruct sx, sy; simpl; try reflexivity;
    destruct (ex ?= ey); simpl; try reflexivity;
    destruct (Pos.compare_cont Eq mx my); reflexivity.
Qed.

Lemma ltb_asym (x y : float) : F64.ltb x y = true -> F64.ltb y x = false.
Proof.
  unfold F64.ltb, SFltb. rewrite (compare_swap x y).
  destruct (SFcompare x y) as [[ | | ]|]; simpl; congruence.
Qed.


(** Multiplying a binary64 value by [-1] only flips its sign: the product
    of the mantissa with [2^52] shifts back by 52 bits without a remainder. *)
Lemma mul_minus_one (x : float) :
  F64.valid x = true -> F64.mul x minus_one = F64.opp x.
Proof.
  destruct x as [s|s| |s m e]; intros Hv;
    try reflexivity; try (destruct s; reflexivity).
  unfold F64.valid, valid_binary, bounded in Hv.
  apply andb_prop in Hv. destruct Hv as [Hc Hb].
  unfold canonical_mantissa in Hc. apply Z.eqb_eq in Hc.
  unfold F64.mul, minus_one.
  change (F64.of_Z (-1)) with (S754_finite true 4503599627370496 (-52)).
  unfold SFmul. rewrite Pos.mul_comm.
  unfold binary_round_aux, shr_fexp.
  cbn [Pos.mul Zdigits2 digits2_pos shr_record_of_loc].
  rewrite !Pos2Z.inj_succ.
  match goal with |- context [fexp _ _ ?a - ?b] =>
    replace a with (Z.pos (digits2_pos m) + e) by lia;
    rewrite Hc; replace (e - b) with 52 by lia end.
  cbn [shr iter_pos shr_1 orb shr_m loc_of_shr_record round_nearest_even].
  cbn [Zdigits2]. replace (e + -52 + 52) with e by lia. rewrite Hc, Z.sub_diag.
  cbn [shr shr_m]. rewrite Hb. destruct s; reflexivity.
Qed.

(** *** Signs of rounded results *)

Lemma shr_1_nonneg (mrs : shr_record) :
  0 <= shr_m mrs -> 0 <= shr_m (shr_1 mrs).
Proof.
  destruct mrs as [m r t]; simpl.
  destruct m as [|[p|p|]|p]; simpl; lia.
Qed.

Lemma iter_shr_1_nonneg (p : positive) :
  forall mrs, 0 <= shr_m mrs -> 0 <= shr_m (iter_pos shr_1 p mrs).
Proof.
  induction p as [p IH|p IH|]; simpl; intros mrs H.
  - apply IH, IH, shr_1_nonneg, H.
  - apply IH, IH, H.
  - apply shr_1_nonneg, H.
Qed.

Lemma shr_fexp_nonneg (m e : Z) (l : location) :
  0 <= m -> 0 <= shr_m (fst (shr_fexp F64.prec F64.emax m e l)).
Proof.
  intros H. unfold shr_fexp, shr.
  assert (H0 : 0 <= shr_m (shr_record_of_loc m l))
    by (destruct l as [|[ | | ]]; exact H).
  destruct (fexp F64.prec F64.emax (Zdigits2 m + e) - e); simpl;
    auto using iter_shr_1_nonneg.
Qed.

Lemma round_nearest_even_nonneg (m : Z) (l : location) :
  0 <= m -> 0 <= round_nearest_even m l.
Proof.
  intros H. destruct l as [|[ | | ]]; simpl; try lia.
  destruct (Z.even m); lia.
Qed.

(** Rounding a non-negative mantissa keeps the sign it is given and never
    yields a NaN. *)
Lemma binary_round_aux_signed (s : bool) (m e : Z) (l : location) :
  0 <= m -> F64.signed s (binary_round_aux F64.prec F64.emax s m e l).
Proof.
  intros H. unfold binary_round_aux.
  pose proof (shr_fexp_nonneg m e l H) as H1.
  destruct (shr_fexp F64.prec F64.emax m e l) as [mrs1 e1]; simpl in H1.
  pose proof (shr_fexp_nonneg _ e1 loc_Exact
                (round_nearest_even_nonneg _ (loc_of_shr_record mrs1) H1)) as H2.
  destruct (shr_fexp F64.prec F64.emax
              (round_nearest_even (shr_m mrs1) (loc_of_shr_record mrs1))
              e1 loc_Exact) as [mrs2 e2]; simpl in H2.
  destruct (shr_m mrs2) as [|q|q]; try exact eq_refl; try lia.
  destruct (e2 <=? F64.emax - F64.prec); exact eq_refl.
Qed.

(** [x > 0] and [x >= 0] in the float order, read on the constructors. *)
Lemma gtb_zero (x : float) :
  F64.gtb x zero = true <->
  match x with
  | S754_finite false _ _ | S754_infinity false => True
  | _ => False
  end.
Proof.
  destruct x as [s|[|]| |[|] m e]; cbv; intuition congruence.
Qed.

Lemma geb_zero (x : float) :
  F64.geb x zero = true <->
  match x with
  | S754_zero _ | S754_finite false _ _ | S754_infinity false => True
  | _ => False
  end.
Proof.
  destruct x as [s|[|]| |[|] m e]; cbv; intuition congruence.
Qed.

Lemma signed_geb_zero (x : float) :
  F64.signed false x -> F64.geb x zero = true.
Proof.
  intros H. apply geb_zero. destruct x as [s|s| |s m e]; simpl in *;
    subst; auto.
Qed.

Lemma mul_pos_signed (x y : float) :
  F64.gtb x zero = true -> F64.gtb y zero = true ->
  F64.signed false (F64.mul x y).
Proof.
  intros Hx Hy. apply gtb_zero in Hx. apply gtb_zero in Hy.
  destruct x as [sx|[|]| |[|] mx ex]; try contradiction;
  destruct y as [sy|[|]| |[|] my ey]; try contradiction; try exact eq_refl.
  apply (binary_round_aux_signed false). lia.
Qed.

Lemma mul_finite_nonneg (x : float) (m : positive) (e : Z) :
  F64.geb x zero = true ->
  F64.geb (F64.mul x (S754_finite false m e)) zero = true.
Proof.
  intros Hx. apply geb_zero in Hx.
  destruct x as [sx|[|]| |[|] mx ex]; try contradiction;
    try (apply geb_zero; exact I).
  apply signed_geb_zero, (binary_round_aux_signed false). lia.
Qed.

Lemma div_core_nonneg (mx my : positive) (ex ey : Z) :
  0 <= fst (fst (SFdiv_core_binary F64.prec F64.emax
                   (Z.pos mx) ex (Z.pos my) ey)).
Proof.
  unfold SFdiv_core_binary.
  set (sh := ex - ey - _).
  set (m' := match sh with 0 => Z.pos mx | Z.pos _ => Z.shiftl (Z.pos mx) sh
             | Z.neg _ => 0 end).
  assert (Hm : 0 <= m').
  { subst m'. destruct sh; try lia. apply Z.shiftl_nonneg. lia. }
  pose proof (Z.div_pos m' (Z.pos my) Hm ltac:(lia)) as Hq.
  unfold Z.div in Hq. destruct (Z.div_eucl m' (Z.pos my)) as [q r].
  exact Hq.
Qed.

(** A non-negative value divided by a positive finite one is non-negative
    (possibly a zero or, on overflow, the positive infinity). *)
Lemma div_nonneg (w p : float) :
  F64.geb w zero = true -> F64.gtb p zero = true -> F64.is_finite p = true ->
  F64.geb (F64.div w p) zero = true.
Proof.
  intros Hw Hp Hf. apply geb_zero in Hw. apply gtb_zero in Hp.
  destruct p as [sp|[|]| |[|] mp ep]; try contradiction; try discriminate.
  destruct w as [sw|[|]| |[|] mw ew]; try contradiction;
    try (apply geb_zero; exact I).
  apply signed_geb_zero. unfold F64.div, SFdiv.
  pose proof (div_core_nonneg mw mp ew ep) as Hq.
  destruct (SFdiv_core_binary F64.prec F64.emax (Z.pos mw) ew (Z.pos mp) ep)
    as [[q e'] l]; simpl in Hq.
  apply (binary_round_aux_signed false), Hq.
Qed.

(** A product that is finite, not zero and carries no sign is positive. *)
Lemma signed_finite_pos (p : float) :
  F64.signed false p -> F64.is_finite p = true -> F64.eqb p zero = false ->
  F64.gtb p zero = true.
Proof.
  intros Hs Hf Hz. apply gtb_zero.
  destruct p as [s|s| |s m e]; simpl in *; subst;
    try discriminate; try contradiction; auto.
Qed.

End F64Facts.

(** * Facts about the numpy and pandas models *)

Module NpFacts.

(** The bisection of [binary_search_with_guess] ends within
    [imax - imin] iterations: more fuel does not change its result. *)
Lemma bisect_fuel (key : float) (arr : list float) :
  forall (fuel fuel' : nat) (imin imax : Z),
    imax - imin <= Z.of_nat fuel -> imax - imin <= Z.of_nat fuel' ->
    Np.bisect fuel key arr imin imax = Np.bisect fuel' key arr imin imax.
Proof.
  induction fuel as [|fuel IH]; intros fuel' imin imax H H'.
  - destruct fuel' as [|fuel']; simpl; [reflexivity|].
    destruct (imin <? imax) eqn:E; [apply Z.ltb_lt in E; lia | reflexivity].
  - destruct fuel' as [|fuel']; simpl.
    + destruct (imin <? imax) eqn:E; [apply Z.ltb_lt in E; lia | reflexivity].
    + destruct (imin <? imax) eqn:E; [|reflexivity].
      apply Z.ltb_lt in E.
      assert (Hh : 0 <= Z.shiftr (imax - imin) 1 < imax - imin).
      { rewrite Z.shiftr_div_pow2 by lia. change (2 ^ 1) with 2.
        split; [apply Z.div_pos; lia | apply Z.div_lt; lia]. }
      destruct (F64.geb key (Np.at_ arr (imin + Z.shiftr (imax - imin) 1)));
        apply IH; lia.
Qed.

(** [numpy.interp] raises on an empty array of sample points only. *)
Lemma interp_returns (x : float) (xp fp : list float) :
  xp <> [] -> exists y, Np.interp x xp fp = Ok y.
Proof.
  intros H. unfold Np.interp.
  destruct xp as [|x0 [|x1 rest]]; [congruence | eauto |].
  destruct (F64.is_nan x); [eauto|].
  repeat match goal with |- context [if ?b then _ else _] =>
    destruct b; eauto end.
Qed.

End NpFacts.

Section FrameFacts.

Lemma iloc_app (pre : frame) (r : sample) (rest : frame) :
  iloc (pre ++ r :: rest) (List.length pre) = Ok r.
Proof.
  unfold iloc. rewrite nth_error_app2 by lia.
  rewrite Nat.sub_diag. reflexivity.
Qed.

(** The rows selected by [jv[jv['V'] == x]] and fetched back by position
    are the rows that pass the test, in the order of the frame. *)
Lemma mapM_iloc_index_where (x : float) (jv pre : frame) :
  mapM (iloc (pre ++ jv)) (index_where_V x jv (List.length pre))
  = Ok (filter (fun r => F64.eqb (V r) x) jv).
Proof.
  revert pre. induction jv as [|r rest IH]; intros pre; simpl.
  - reflexivity.
  - specialize (IH (pre ++ [r])).
    rewrite <- app_assoc, length_app, Nat.add_1_r in IH. simpl in IH.
    destruct (F64.eqb (V r) x); simpl.
    + rewrite iloc_app. simpl. rewrite IH. reflexivity.
    + exact IH.
Qed.

Lemma iloc_C_index_where (jv : frame) :
  iloc_C jv (index_where_V zero jv 0)
  = Ok (col_C (filter at_zero_volt jv)).
Proof.
  unfold iloc_C. pose proof (mapM_iloc_index_where zero jv []) as H.
  simpl in H. rewrite H. reflexivity.
Qed.

Lemma contains_zero_filter (jv : frame) :
  contains zero (col_V jv) = negb (Nat.eqb (List.length (filter at_zero_volt jv)) 0).
Proof.
  unfold contains, col_V, at_zero_volt.
  induction jv as [|r rest IH]; simpl; [reflexivity|].
  destruct (F64.eqb (V r) zero); simpl; [reflexivity | exact IH].
Qed.

(** [float(arr)] does not depend on the order of the array. *)
Lemma float_of_array_rev (arr : list float) :
  float_of_array (rev arr) = float_of_array arr.
Proof.
  destruct arr as [|a [|b rest]]; try reflexivity.
  simpl. destruct (rev rest) as [|c [|d tl]]; reflexivity.
Qed.

(** When the sweep holds a sample at V = 0, Jsc is the conversion to a
    scalar of the currents measured at V = 0. *)
Lemma get_Jsc_measured (jv : frame) :
  contains zero (col_V jv) = true ->
  get_Jsc jv = float_of_array (col_C (filter at_zero_volt jv)).
Proof.
  intros H. unfold get_Jsc. rewrite H, iloc_C_index_where. reflexivity.
Qed.

(** With exactly one sample at V = 0, Jsc is the current of that sample,
    which numpy.interp is not asked for. *)
Lemma get_Jsc_measured_once (jv : frame) (r : sample) :
  filter at_zero_volt jv = [r] ->
  get_Jsc jv = Ok (C r) /\ find at_zero_volt jv = Some r.
Proof.
  intros H. split.
  - rewrite get_Jsc_measured.
    + rewrite H. reflexivity.
    + rewrite contains_zero_filter, H. reflexivity.
  - clear - H. induction jv as [|a rest IH]; simpl in *; [discriminate|].
    destruct (at_zero_volt a); [congruence | auto].
Qed.

Lemma get_parameters_Ok (jv : frame) (r : report) :
  get_parameters jv = Ok r <->
  exists p, get_parameters_values jv = Ok p /\ r = to_strings p.
Proof.
  unfold get_parameters. destruct (get_parameters_values jv) as [p|e]; simpl.
  - split; [intros [= <-]; eauto | intros (p' & [= <-] & ->); reflexivity].
  - split; [discriminate | intros (p' & H & _); discriminate].
Qed.

Lemma get_parameters_values_Ok (jv : frame) (p : parameters) :
  get_parameters_values jv = Ok p ->
  get_Jsc jv = Ok (Jsc p) /\ get_Voc jv = Ok (Voc p) /\
  FF p = F64.mul (F64.div (get_Wmax jv) (F64.mul (Jsc p) (Voc p))) (F64.of_Z 100) /\
  PCE p = F64.div (get_Wmax jv) (F64.of_Z 1000).
Proof.
  unfold get_parameters_values.
  destruct (get_Jsc jv) as [j|e]; simpl; [|discriminate].
  destruct (get_Voc jv) as [v|e]; simpl; [|discriminate].
  intros [= <-]. simpl. auto.
Qed.

End FrameFacts.

(** * Properties of the pipeline *)

(** C1: on the six-point sweep [(-50,5.0),(0,4.8),(50,4.0),(100,2.0),
    (150,0.0),(200,-3.0)] (quadrant 1, no unit conversion, forward scan)
    [get_parameters] takes Jsc = 4.8 from the sample at V = 0 without
    interpolating, interpolates Voc in the interval between (100,2.0) and
    (150,0.0) and finds 150, takes Wmax = 200 as the largest of the products
    V*C of the samples, and returns the strings "150", "4.80", "28" and
    "0.20". *)
Theorem six_point_sweep_parameters :
  normalize plain_config six_point_sweep = Ok six_point_sweep /\
  (r0 <- iloc six_point_sweep 0 ;; r1 <- iloc six_point_sweep 1 ;;
   Ok (Jsc_scan r0 r1, Voc_scan r0 r1)) = Ok (Forward, Forward) /\
  (* Jsc: the sample at position 1 is the only one at V = 0 *)
  contains zero (col_V six_point_sweep) = true /\
  index_where_V zero six_point_sweep 0 = [1%nat] /\
  iloc six_point_sweep 1 = Ok (Sample (F64.of_Z 0) (F64.dec 48 1)) /\
  get_Jsc six_point_sweep = Ok (F64.dec 48 1) /\
  (* Voc: the interval found in the reversed arrays is (150,0.0)-(100,2.0) *)
  Np.binary_search_with_guess zero (rev (col_C six_point_sweep)) 0 = 1 /\
  iloc (rev six_point_sweep) 1 = Ok (Sample (F64.of_Z 150) (F64.dec 0 1)) /\
  iloc (rev six_point_sweep) 2 = Ok (Sample (F64.of_Z 100) (F64.dec 20 1)) /\
  get_Voc six_point_sweep = Ok (F64.of_Z 150) /\
  (* Wmax: the largest product *)
  mul_VC six_point_sweep = map F64.of_Z [-250; 0; 200; 200; 0; -600] /\
  get_Wmax six_point_sweep = F64.of_Z 200 /\
  get_parameters six_point_sweep = Ok (Report "150" "4.80" "28" "0.20").
Proof.
  repeat split; vm_compute; reflexivity.
Qed.

(** C2, at a sweep with two samples at V = 0: the first sample at V = 0 of
    [(0,1),(0,2),(1,0)] carries the current 1, but the conversion of the
    two currents found at V = 0 to one scalar raises a TypeError, and so
    does [get_parameters]. *)
Theorem get_Jsc_twice_zero :
  find at_zero_volt twice_zero_sweep = Some (Sample (F64.of_Z 0) (F64.of_Z 1)) /\
  iloc_C twice_zero_sweep (index_where_V zero twice_zero_sweep 0)
    = Ok [F64.of_Z 1; F64.of_Z 2] /\
  get_Jsc twice_zero_sweep = Raise TypeError /\
  get_parameters twice_zero_sweep = Raise TypeError.
Proof.
  repeat split; vm_compute; reflexivity.
Qed.

Section Quadrant.

Lemma mul_V_minus_one (jv : frame) :
  valid_frame jv -> mul_V minus_one jv = map neg_V jv.
Proof.
  unfold mul_V, neg_V. induction 1 as [|r rest [Hv _] _ IH]; simpl.
  - reflexivity.
  - rewrite F64Facts.mul_minus_one, IH by exact Hv. reflexivity.
Qed.

Lemma mul_C_minus_one (jv : frame) :
  valid_frame jv -> mul_C minus_one jv = map neg_C jv.
Proof.
  unfold mul_C, neg_C. induction 1 as [|r rest [_ Hc] _ IH]; simpl.
  - reflexivity.
  - rewrite F64Facts.mul_minus_one, IH by exact Hc. reflexivity.
Qed.

Lemma valid_frame_neg_V (jv : frame) :
  valid_frame jv -> valid_frame (map neg_V jv).
Proof.
  induction 1 as [|r rest [Hv Hc] _ IH]; simpl; constructor; auto.
  split; [|exact Hc]. simpl. destruct (V r); exact Hv.
Qed.

Lemma fix_quadrant_unknown (jv : frame) (q : Z) :
  ~ In q [2; 3; 4] -> fix_quadrant jv q = Raise (SystemExit no_such_quadrant).
Proof.
  intros H. unfold fix_quadrant.
  destruct (Z.eqb_spec q 2); [exfalso; apply H; simpl; auto|].
  destruct (Z.eqb_spec q 3); [exfalso; apply H; simpl; auto|].
  destruct (Z.eqb_spec q 4); [exfalso; apply H; simpl; auto|].
  reflexivity.
Qed.

End Quadrant.

(** Called with quadrant 1, [fix_quadrant] itself exits: it is the test
    [cfg['quadrant'] != 1] of the main loop that leaves such a sweep alone. *)
Remark fix_quadrant_1 (jv : frame) :
  fix_quadrant jv 1 = Raise (SystemExit no_such_quadrant).
Proof. reflexivity. Qed.

(** C3: the quadrant step of the main loop leaves a quadrant-1 sweep as it
    is, negates every voltage for quadrant 2, every voltage and every
    current for quadrant 3, every current for quadrant 4, and for any other
    quadrant value prints the message and exits, which ends the
    normalisation and the whole main loop; the sweep is never passed on as
    if it were in quadrant 1. *)
Theorem quadrant_normalization (cfg : config) (jv : frame) :
  valid_frame jv ->
  (quadrant cfg = 1 -> fix_quadrant_if_needed cfg jv = Ok jv) /\
  (quadrant cfg = 2 -> fix_quadrant_if_needed cfg jv = Ok (map neg_V jv)) /\
  (quadrant cfg = 3 ->
     fix_quadrant_if_needed cfg jv = Ok (map neg_C (map neg_V jv))) /\
  (quadrant cfg = 4 -> fix_quadrant_if_needed cfg jv = Ok (map neg_C jv)) /\
  (~ In (quadrant cfg) [1; 2; 3; 4] ->
     fix_quadrant_if_needed cfg jv = Raise (SystemExit no_such_quadrant) /\
     normalize cfg jv = Raise (SystemExit no_such_quadrant) /\
     forall (str : float -> string) (filename : string)
            (others : list (string * frame)),
       main_loop str cfg ((filename, jv) :: others)
       = Raise (SystemExit no_such_quadrant)).
Proof.
  intros Hv. unfold fix_quadrant_if_needed, fix_quadrant.
  repeat split.
  - intros ->. reflexivity.
  - intros ->. simpl. rewrite mul_V_minus_one by exact Hv. reflexivity.
  - intros ->. simpl.
    rewrite mul_V_minus_one, mul_C_minus_one
      by auto using valid_frame_neg_V. reflexivity.
  - intros ->. simpl. rewrite mul_C_minus_one by exact Hv. reflexivity.
  - destruct (Z.eqb_spec (quadrant cfg) 1) as [E|_];
      [exfalso; apply H; simpl; auto|].
    apply fix_quadrant_unknown. simpl in *. tauto.
  - unfold normalize, fix_quadrant_if_needed.
    destruct (Z.eqb_spec (quadrant cfg) 1) as [E|_];
      [exfalso; apply H; simpl; auto|].
    simpl. rewrite fix_quadrant_unknown by (simpl in *; tauto). reflexivity.
  - intros str filename others.
    unfold main_loop. simpl. unfold normalize, fix_quadrant_if_needed.
    destruct (Z.eqb_spec (quadrant cfg) 1) as [E|_];
      [exfalso; apply H; simpl; auto|].
    simpl. rewrite fix_quadrant_unknown by (simpl in *; tauto). reflexivity.
Qed.

Lemma six_point_sweep_valid : valid_frame six_point_sweep.
Proof. repeat constructor. Qed.

(** The six-point sweep recorded in quadrant 3, and under the quadrant
    value 5. *)
Lemma quadrant_normalization_witness :
  valid_frame six_point_sweep /\
  fix_quadrant_if_needed (Config 3 "J" (F64.of_Z 1) no_prefix no_prefix no_prefix) six_point_sweep
  = Ok (map neg_C (map neg_V six_point_sweep)) /\
  normalize (Config 5 "J" (F64.of_Z 1) no_prefix no_prefix no_prefix) six_point_sweep
  = Raise (SystemExit no_such_quadrant).
Proof.
  pose proof (quadrant_normalization (Config 3 "J" (F64.of_Z 1) no_prefix no_prefix no_prefix)
                six_point_sweep six_point_sweep_valid) as H3.
  pose proof (quadrant_normalization (Config 5 "J" (F64.of_Z 1) no_prefix no_prefix no_prefix)
                six_point_sweep six_point_sweep_valid) as H5.
  split; [exact six_point_sweep_valid|]. split.
  - apply H3. reflexivity.
  - apply H5. simpl. intros [E|[E|[E|[E|[]]]]]; discriminate E.
Defined.

Section ScanDirection.

Lemma col_V_rev (jv : frame) : col_V (rev jv) = rev (col_V jv).
Proof. apply map_rev. Qed.

Lemma col_C_rev (jv : frame) : col_C (rev jv) = rev (col_C jv).
Proof. apply map_rev. Qed.

Lemma contains_rev (x : float) (arr : list float) :
  contains x (rev arr) = contains x arr.
Proof.
  unfold contains. induction arr as [|a rest IH]; simpl; [reflexivity|].
  rewrite existsb_app, IH. simpl. rewrite orb_false_r. apply orb_comm.
Qed.

Lemma filter_rev' (f : sample -> bool) (jv : frame) :
  filter f (rev jv) = rev (filter f jv).
Proof.
  induction jv as [|r rest IH]; simpl; [reflexivity|].
  rewrite filter_app, IH. simpl.
  destruct (f r); simpl; [reflexivity | apply app_nil_r].
Qed.

(** The part of [get_Jsc] that reads the sample at V = 0 does not see
    the order of the rows. *)
Lemma get_Jsc_measured_rev (jv : frame) :
  contains zero (col_V jv) = true -> get_Jsc (rev jv) = get_Jsc jv.
Proof.
  intros H. rewrite !get_Jsc_measured.
  - rewrite filter_rev'. unfold col_C. rewrite map_rev.
    apply float_of_array_rev.
  - exact H.
  - rewrite col_V_rev, contains_rev. exact H.
Qed.

Variables (jv : frame) (r0 r1 l0 l1 : sample).
Hypothesis first : iloc jv 0 = Ok r0.
Hypothesis second : iloc jv 1 = Ok r1.
Hypothesis last : iloc (rev jv) 0 = Ok l0.
Hypothesis before_last : iloc (rev jv) 1 = Ok l1.
Hypothesis rising_start : F64.ltb (V r0) (V r1) = true.
Hypothesis rising_end : F64.ltb (V l1) (V l0) = true.

Lemma get_Jsc_rev : get_Jsc (rev jv) = get_Jsc jv.
Proof using All.
  destruct (contains zero (col_V jv)) eqn:Hz.
  - apply get_Jsc_measured_rev, Hz.
  - unfold get_Jsc. rewrite col_V_rev, col_C_rev, contains_rev, Hz.
    rewrite first, second, last, before_last. simpl.
    unfold Jsc_scan. rewrite rising_start.
    rewrite (F64Facts.ltb_asym _ _ rising_end).
    rewrite !rev_involutive. reflexivity.
Qed.

Lemma get_Voc_rev : get_Voc (rev jv) = get_Voc jv.
Proof using All.
  unfold get_Voc. rewrite col_V_rev, col_C_rev.
  rewrite first, second, last, before_last. simpl.
  unfold Voc_scan, F64.gtb. fold (F64.ltb (V l1) (V l0)).
  fold (F64.ltb (V r1) (V r0)). rewrite rising_end.
  rewrite (F64Facts.ltb_asym _ _ rising_start). reflexivity.
Qed.

End ScanDirection.

(** C4, as the code has it: when the first voltage of a sweep is below the
    second and its last voltage is above the one before it (so the reversed
    sweep starts with falling voltages), [get_parameters] finds the same
    Voc and Jsc on the reversed sweep as on the sweep itself, as values and
    as strings. *)
Theorem reversed_sweep_same_Voc_Jsc (jv : frame) (r0 r1 l0 l1 : sample) :
  iloc jv 0 = Ok r0 -> iloc jv 1 = Ok r1 ->
  iloc (rev jv) 0 = Ok l0 -> iloc (rev jv) 1 = Ok l1 ->
  F64.ltb (V r0) (V r1) = true ->
  F64.ltb (V l1) (V l0) = true ->
  get_Jsc (rev jv) = get_Jsc jv /\
  get_Voc (rev jv) = get_Voc jv /\
  (forall p, get_parameters_values jv = Ok p ->
     exists p', get_parameters_values (rev jv) = Ok p' /\
                Voc p' = Voc p /\ Jsc p' = Jsc p) /\
  (forall r, get_parameters jv = Ok r ->
     exists r', get_parameters (rev jv) = Ok r' /\
                Voc_str r' = Voc_str r /\ Jsc_str r' = Jsc_str r).
Proof.
  intros H0 H1 L0 L1 Hs He.
  pose proof (get_Jsc_rev jv r0 r1 l0 l1 H0 H1 L0 L1 Hs He) as HJ.
  pose proof (get_Voc_rev jv r0 r1 l0 l1 H0 H1 L0 L1 Hs He) as HV.
  assert (Hp : forall p, get_parameters_values jv = Ok p ->
     exists p', get_parameters_values (rev jv) = Ok p' /\
                Voc p' = Voc p /\ Jsc p' = Jsc p).
  { intros p Hp. apply get_parameters_values_Ok in Hp.
    destruct Hp as (Hj & Hv & _).
    unfold get_parameters_values. rewrite HJ, HV, Hj, Hv. simpl.
    eexists. split; [reflexivity|]. simpl. auto. }
  repeat split; try assumption.
  intros r Hr. apply get_parameters_Ok in Hr. destruct Hr as (p & Hr & ->).
  destruct (Hp p Hr) as (p' & Hp' & EV & EJ).
  exists (to_strings p'). split.
  - apply get_parameters_Ok. eauto.
  - unfold to_strings. simpl. rewrite EV, EJ. auto.
Qed.

(** The six-point sweep rises at both ends. *)
Lemma reversed_sweep_same_Voc_Jsc_witness :
  get_Jsc (rev six_point_sweep) = get_Jsc six_point_sweep /\
  get_Voc (rev six_point_sweep) = get_Voc six_point_sweep.
Proof.
  refine (let H := reversed_sweep_same_Voc_Jsc six_point_sweep
            _ _ _ _ eq_refl eq_refl eq_refl eq_refl _ _ in
          conj (proj1 H) (proj1 (proj2 H))); vm_compute; reflexivity.
Defined.

(** C4 fails on a sweep that rises at first and comes back at the end:
    [(-1,4),(1,3),(3,-2),(1,3)] starts with rising voltages, and so does
    its reverse; both are interpolated as forward scans, and Voc and Jsc
    differ. *)
Lemma reversed_sweep_differs :
  (r0 <- iloc up_and_back_sweep 0 ;; r1 <- iloc up_and_back_sweep 1 ;;
   Ok (F64.ltb (V r0) (V r1))) = Ok true /\
  get_Jsc up_and_back_sweep = Ok (F64.dec 35 1) /\
  get_Jsc (rev up_and_back_sweep) = Ok (F64.of_Z 4) /\
  get_Voc up_and_back_sweep = Ok (F64.of_Z 1) /\
  get_Voc (rev up_and_back_sweep) = Ok (F64.of_Z (-1)) /\
  get_parameters up_and_back_sweep = Ok (Report "1" "3.50" "86" "0.00") /\
  get_parameters (rev up_and_back_sweep) = Ok (Report "-1" "4.00" "-75" "0.00").
Proof.
  repeat split; vm_compute; reflexivity.
Qed.

Lemma rising_last_two (pre : list float) (a b : float) :
  rising (pre ++ [a; b]) = true -> F64.ltb a b = true.
Proof.
  induction pre as [|x [|y rest] IH]; simpl; intros H.
  - apply andb_prop in H. tauto.
  - apply andb_prop in H. destruct H as [_ H].
    apply andb_prop in H. tauto.
  - apply andb_prop in H. destruct H as [_ H]. apply IH, H.
Qed.

(** In particular a sweep of strictly increasing voltages and its reverse
    have the same Jsc and the same Voc. *)
Corollary rising_sweep_reversed (jv : frame) :
  rising (col_V jv) = true ->
  get_Jsc (rev jv) = get_Jsc jv /\ get_Voc (rev jv) = get_Voc jv.
Proof.
  intros H.
  destruct jv as [|r0 [|r1 rest]]; try (split; reflexivity).
  destruct (rev (r0 :: r1 :: rest)) as [|l0 [|l1 tl]] eqn:E.
  - apply (f_equal (@List.length sample)) in E.
    rewrite length_rev in E. discriminate E.
  - apply (f_equal (@List.length sample)) in E.
    rewrite length_rev in E. discriminate E.
  - assert (Hjv : r0 :: r1 :: rest = rev tl ++ [l1; l0]).
    { rewrite <- (rev_involutive (r0 :: r1 :: rest)), E. simpl.
      rewrite <- app_assoc. reflexivity. }
    assert (Hend : F64.ltb (V l1) (V l0) = true).
    { apply (rising_last_two (col_V (rev tl))).
      rewrite Hjv in H. unfold col_V in *. rewrite map_app in H. exact H. }
    assert (Hstart : F64.ltb (V r0) (V r1) = true).
    { simpl in H. apply andb_prop in H. tauto. }
    rewrite <- E.
    split.
    + apply (get_Jsc_rev _ r0 r1 l0 l1); try reflexivity; try assumption;
        rewrite E; reflexivity.
    + apply (get_Voc_rev _ r0 r1 l0 l1); try reflexivity; try assumption;
        rewrite E; reflexivity.
Qed.

(** C5, as the code has it: when the extracted Jsc and Voc are positive,
    their product as the code computes it is finite and not zero, and the
    maximum power Wmax is not negative, then FF = 100*Wmax/(Jsc*Voc) and
    PCE = Wmax/1000 are not negative and are not NaN. *)
Theorem FF_PCE_nonneg (jv : frame) (p : parameters) :
  get_parameters_values jv = Ok p ->
  F64.gtb (Jsc p) zero = true ->
  F64.gtb (Voc p) zero = true ->
  F64.is_finite (F64.mul (Jsc p) (Voc p)) = true ->
  F64.eqb (F64.mul (Jsc p) (Voc p)) zero = false ->
  F64.geb (get_Wmax jv) zero = true ->
  F64.geb (FF p) zero = true /\ F64.geb (PCE p) zero = true.
Proof.
  intros Hp HJ HV Hfin Hnz HW.
  apply get_parameters_values_Ok in Hp. destruct Hp as (_ & _ & -> & ->).
  split.
  - change (F64.of_Z 100) with (S754_finite false 7036874417766400 (-46)).
    apply F64Facts.mul_finite_nonneg, F64Facts.div_nonneg; auto.
    apply F64Facts.signed_finite_pos; auto using F64Facts.mul_pos_signed.
  - apply F64Facts.div_nonneg; auto.
Qed.

(** On the six-point sweep Jsc = 4.8, Voc = 150 and Wmax = 200. *)
Lemma FF_PCE_nonneg_witness :
  exists p, get_parameters_values six_point_sweep = Ok p /\
            F64.geb (FF p) zero = true /\ F64.geb (PCE p) zero = true.
Proof.
  eexists. split; [vm_compute; reflexivity|].
  apply (FF_PCE_nonneg six_point_sweep); vm_compute; reflexivity.
Defined.

(** Why the product must not vanish: with Jsc = Voc = [2^-600] the product
    underflows to zero and FF is 0/0. *)
Example FF_nan_on_underflow :
  get_parameters_values underflow_sweep
  = Ok (Parameters tiny tiny F64.nan zero) /\
  F64.mul tiny tiny = zero /\
  get_parameters underflow_sweep = Ok (Report "0" "0.00" "nan" "0.00").
Proof.
  repeat split; vm_compute; reflexivity.
Qed.

(** Why FF and PCE need not be finite: the product of the sample
    (1e200,1e200) overflows, Wmax is the positive infinity, and so are FF
    and PCE, with Jsc = Voc = 1. *)
Example FF_PCE_infinite_on_overflow :
  get_parameters_values overflow_sweep
  = Ok (Parameters (F64.of_Z 1) (F64.of_Z 1) F64.inf F64.inf) /\
  get_Wmax overflow_sweep = F64.inf /\
  get_parameters overflow_sweep = Ok (Report "1" "1.00" "inf" "inf").
Proof.
  repeat split; vm_compute; reflexivity.
Qed.

(** C5 fails on the sweep [(-1,1),(3,-1)]: Jsc = 0.5 and Voc = 1 are
    positive, every product V*C is negative, and so are FF = -200 and
    PCE = -0.001. *)
Lemma FF_PCE_negative :
  get_parameters_values negative_power_sweep
  = Ok (Parameters (F64.of_Z 1) (F64.dec 5 1) (F64.of_Z (-200)) (F64.dec (-1) 3)) /\
  F64.gtb (F64.dec 5 1) zero = true /\
  F64.gtb (F64.of_Z 1) zero = true /\
  get_Wmax negative_power_sweep = F64.of_Z (-1) /\
  F64.geb (F64.of_Z (-200)) zero = false /\
  F64.geb (F64.dec (-1) 3) zero = false.
Proof.
  repeat split; vm_compute; reflexivity.
Qed.

(** * Facts about the formatted strings *)

Section Strings.

Local Open Scope string_scope.

Lemma string_of_uint_head (u : Decimal.uint) :
  exists c rest, NilZero.string_of_uint u = String c rest /\ c <> "-"%char.
Proof.
  destruct u; simpl; eexists; eexists; (split; [reflexivity | discriminate]).
Qed.

Lemma fixed_head (n : Z) (p : nat) :
  exists c rest, F64.fixed n p = String c rest /\ c <> "-"%char.
Proof.
  unfold F64.fixed, F64.digits. destruct p as [|p].
  - apply string_of_uint_head.
  - destruct (string_of_uint_head
                (N.to_uint (Z.to_N (n / 10 ^ Z.of_nat (S p)))))
      as (c & rest & -> & Hc).
    simpl. eauto.
Qed.

Lemma signed_fixed (s : bool) (n : Z) (p : nat) :
  no_double_minus (F64.sign_prefix s ++ F64.fixed n p).
Proof.
  destruct (fixed_head n p) as (c & rest & -> & Hc).
  destruct s; simpl; unfold no_double_minus; eauto 8.
Qed.

(** [format(x, '.pf')] never begins with two minus signs. *)
Lemma format_no_double_minus (x : float) (p : nat) :
  no_double_minus (F64.format x p).
Proof.
  destruct x as [s|s| |s m e]; simpl; try apply signed_fixed.
  - destruct s; simpl; unfold no_double_minus;
      eexists; eexists; (split; [reflexivity|]);
      [right; eexists; eexists; split; [reflexivity | discriminate]
      | left; discriminate].
  - unfold no_double_minus. eexists; eexists.
    split; [reflexivity | left; discriminate].
Qed.

Lemma no_double_minus_app (s t : string) :
  no_double_minus s -> forall u, s ++ t <> "----" ++ u.
Proof.
  intros (c & rest & -> & [Hc | (c' & rest' & -> & Hc')]) u; simpl; congruence.
Qed.

Lemma append_assoc (a b c : string) : (a ++ b) ++ c = a ++ b ++ c.
Proof.
  induction a as [|x a IH]; simpl; [reflexivity | rewrite IH; reflexivity].
Qed.

Lemma append_inv_head (p a b : string) : p ++ a = p ++ b -> a = b.
Proof.
  induction p as [|c p IH]; simpl; [auto | intros [= H]; auto].
Qed.

Lemma format_not_placeholder (x : float) (p : nat) :
  F64.format x p <> "----".
Proof.
  intros H. apply (no_double_minus_app _ "" (format_no_double_minus x p) "").
  rewrite H. reflexivity.
Qed.

(** A text that starts with the metrics block of formatted values does
    not start with the block of placeholders. *)
Lemma metrics_block_not_placeholder (Voc Jsc FF PCE t t' : string) :
  no_double_minus Voc ->
  metrics_block Voc Jsc FF PCE ++ t
  <> metrics_block "----" "----" "----" "----" ++ t'.
Proof.
  intros HV E. unfold metrics_block in E.
  rewrite !append_assoc in E.
  do 3 apply append_inv_head in E.
  revert E. apply no_double_minus_app, HV.
Qed.

End Strings.

(** C6, as the code has it: in the table under the plot the four strings
    of [get_parameters] are replaced by the row ----,----,----,---- exactly
    when the PCE string is "0.00", and are shown otherwise; the text file
    always starts with the metrics block of the four computed strings, which
    is never the block of placeholders. *)
Theorem placeholder_in_plot_only (str : float -> string)
    (jv : frame) (filename : string) (r : report) :
  get_parameters jv = Ok r ->
  let fig := jv_plot jv filename (Voc_str r) (Jsc_str r) (FF_str r) (PCE_str r) in
  let txt := jv_datafile str jv (Voc_str r) (Jsc_str r) (FF_str r) (PCE_str r) in
  (cellText fig = [placeholder] <-> PCE_str r = "0.00"%string) /\
  (cellText fig = [[Voc_str r; Jsc_str r; FF_str r; PCE_str r]]
     <-> PCE_str r <> "0.00"%string) /\
  (exists rows,
     txt = (metrics_block (Voc_str r) (Jsc_str r) (FF_str r) (PCE_str r)
            ++ rows)%string) /\
  (forall rows, txt <> (metrics_block "----" "----" "----" "----" ++ rows)%string).
Proof.
  intros Hr fig txt. apply get_parameters_Ok in Hr.
  destruct Hr as (p & _ & ->). subst fig txt.
  unfold jv_plot, table_values, jv_datafile, to_strings.
  cbn [cellText Voc_str Jsc_str FF_str PCE_str].
  assert (HP : F64.format (PCE p) 2 <> "----"%string)
    by apply format_not_placeholder.
  assert (HV := format_no_double_minus (Voc p) 0).
  destruct (String.eqb_spec (F64.format (PCE p) 2) "0.00") as [E|E];
    cbn [negb]; repeat split; try tauto; eauto;
    try (intros rows; apply metrics_block_not_placeholder, HV).
  - intros [= _ _ _ E']. rewrite E in E'. discriminate E'.
  - intros [= _ _ _ E']. contradiction.
Qed.

(** On the dark sweep the plot shows the placeholder row and the text file
    the computed strings. *)
Lemma placeholder_in_plot_only_witness :
  cellText (jv_plot dark_sweep "dark" "0" "0.00" "nan" "0.00") = [placeholder] /\
  forall rows,
    jv_datafile (fun _ => EmptyString) dark_sweep "0" "0.00" "nan" "0.00"
    <> (metrics_block "----" "----" "----" "----" ++ rows)%string.
Proof.
  refine (let H := placeholder_in_plot_only (fun _ => EmptyString) dark_sweep
                     "dark" (Report "0" "0.00" "nan" "0.00") _ in
          conj (proj2 (proj1 H) eq_refl) (proj2 (proj2 (proj2 H)))).
  vm_compute. reflexivity.
Defined.

(** C6 fails for the text file: the dark sweep [(0,0),(1,0)] has the PCE
    string "0.00", the table under the plot holds the placeholder row, and
    the metrics block of the text file holds the four computed strings. *)
Lemma datafile_shows_dark_scan :
  get_parameters dark_sweep = Ok (Report "0" "0.00" "nan" "0.00") /\
  table_values "0" "0.00" "nan" "0.00" = [placeholder] /\
  metrics_block "0" "0.00" "nan" "0.00"
  = ("Main cell parameters:" ++ nl ++ "Voc (mV): 0" ++ nl ++
     "Jsc (mA cm-2): 0.00" ++ nl ++ "FF (%): nan" ++ nl ++
     "PCE (%): 0.00" ++ nl ++ nl)%string /\
  metrics_block "0" "0.00" "nan" "0.00"
  <> metrics_block "----" "----" "----" "----" /\
  (forall str : float -> string,
     exists rows,
       jv_datafile str dark_sweep "0" "0.00" "nan" "0.00"
       = (metrics_block "0" "0.00" "nan" "0.00" ++ rows)%string).
Proof.
  repeat split; try (vm_compute; reflexivity).
  - vm_compute. discriminate.
  - intros str. eexists. reflexivity.
Qed.

Section Returned.

Lemma get_parameters_Raise (jv : frame) (e : exn) :
  get_parameters jv = Raise e <-> get_parameters_values jv = Raise e.
Proof.
  unfold get_parameters. destruct (get_parameters_values jv); simpl;
    split; congruence.
Qed.

(** Two sweeps with different values of Jsc and the same four strings. *)
Lemma same_report_different_values :
  get_parameters sweep_4800 = Ok (Report "1" "4.80" "0" "0.00") /\
  get_parameters sweep_4801 = Ok (Report "1" "4.80" "0" "0.00") /\
  get_parameters_values sweep_4800
  = Ok (Parameters (F64.of_Z 1) (F64.dec 4800 3) zero zero) /\
  get_parameters_values sweep_4801
  = Ok (Parameters (F64.of_Z 1) (F64.dec 4801 3) zero zero) /\
  F64.eqb (F64.dec 4800 3) (F64.dec 4801 3) = false.
Proof.
  repeat split; vm_compute; reflexivity.
Qed.

Lemma no_recover :
  ~ exists recover : report -> parameters,
      forall jv r, get_parameters jv = Ok r ->
                   get_parameters_values jv = Ok (recover r).
Proof.
  intros (recover & H).
  destruct same_report_different_values as (R0 & R1 & V0 & V1 & Hne).
  apply H in R0. apply H in R1. rewrite V0 in R0. rewrite V1 in R1.
  rewrite <- R1 in R0. vm_compute in R0. discriminate R0.
Qed.

End Returned.

(** C7, as the code has it: the rounding (Voc to 0 decimals, Jsc to 2, FF
    to 0, PCE to 2) is done inside [get_parameters], which returns the four
    strings and nothing else; it fails exactly when the computation of the
    values fails, and the unrounded values cannot be recovered from what it
    returns. *)
Theorem get_parameters_returns_strings :
  (forall jv r,
     get_parameters jv = Ok r <->
     exists p, get_parameters_values jv = Ok p /\
               Voc_str r = F64.format (Voc p) 0 /\
               Jsc_str r = F64.format (Jsc p) 2 /\
               FF_str r = F64.format (FF p) 0 /\
               PCE_str r = F64.format (PCE p) 2) /\
  (forall jv e,
     get_parameters jv = Raise e <-> get_parameters_values jv = Raise e) /\
  ~ (exists recover : report -> parameters,
       forall jv r, get_parameters jv = Ok r ->
                    get_parameters_values jv = Ok (recover r)).
Proof.
  split; [|split; [exact get_parameters_Raise | exact no_recover]].
  intros jv r. rewrite get_parameters_Ok. split.
  - intros (p & Hp & ->). exists p. simpl. auto.
  - intros (p & Hp & EV & EJ & EF & EP). exists p. split; [exact Hp|].
    destruct r; simpl in *. unfold to_strings. congruence.
Qed.

(** C7 fails: the sweeps [(0,4.800),(1,0)] and [(0,4.801),(1,0)] have
    different values of Jsc, and [get_parameters] returns the same four
    strings for both, so no consumer of its result can tell the unrounded
    values. *)
Lemma unrounded_values_not_returned :
  get_parameters sweep_4800 = get_parameters sweep_4801 /\
  get_parameters_values sweep_4800 <> get_parameters_values sweep_4801 /\
  ~ (exists recover : report -> parameters,
       forall jv r, get_parameters jv = Ok r ->
                    get_parameters_values jv = Ok (recover r)).
Proof.
  destruct same_report_different_values as (R0 & R1 & V0 & V1 & Hne).
  split; [congruence|]. split; [|exact no_recover].
  rewrite V0, V1. intros E. vm_compute in E. discriminate E.
Qed.

Section ShortSweeps.

Lemma fix_quadrant_if_needed_length (cfg : config) (jv : frame) :
  In (quadrant cfg) [1; 2; 3; 4] ->
  exists jv', fix_quadrant_if_needed cfg jv = Ok jv' /\
              List.length jv' = List.length jv.
Proof.
  unfold fix_quadrant_if_needed, fix_quadrant, mul_V, mul_C.
  intros [E|[E|[E|[E|[]]]]]; rewrite <- E; simpl; eexists;
    (split; [reflexivity|]); rewrite ?length_map; reflexivity.
Qed.

(** With one of the four quadrants the normalisation returns a frame of
    as many rows as it received. *)
Lemma normalize_length (cfg : config) (jv : frame) :
  In (quadrant cfg) [1; 2; 3; 4] ->
  exists jv', normalize cfg jv = Ok jv' /\ List.length jv' = List.length jv.
Proof.
  intros Hq. unfold normalize.
  destruct (fix_quadrant_if_needed_length cfg jv Hq) as (jv1 & -> & <-).
  simpl. eexists. split; [reflexivity|].
  unfold mul_V, mul_C, div_C.
  repeat match goal with |- context [if ?b then _ else _] => destruct b end;
    rewrite ?length_map; reflexivity.
Qed.

(** [get_parameters] reads the second row: on fewer rows it raises an
    IndexError. *)
Lemma get_parameters_short (jv : frame) :
  (List.length jv < 2)%nat -> get_parameters jv = Raise IndexError.
Proof.
  intros H. apply get_parameters_Raise.
  destruct jv as [|r [|r' rest]]; simpl in H; try lia.
  - reflexivity.
  - unfold get_parameters_values, get_Jsc, get_Voc, contains. simpl.
    destruct (F64.eqb (V r) zero); reflexivity.
Qed.

End ShortSweeps.

(** C8, as the code has it: nothing checks the number of samples.  A sweep
    of fewer than two samples passes the normalisation (for each of the
    four quadrants) with its rows kept, and it is [get_parameters] that
    fails afterwards, with an IndexError. *)
Theorem short_sweep_fails_in_get_parameters (cfg : config) (jv : frame) :
  (List.length jv < 2)%nat ->
  In (quadrant cfg) [1; 2; 3; 4] ->
  exists jv', normalize cfg jv = Ok jv' /\
              List.length jv' = List.length jv /\
              get_parameters jv' = Raise IndexError.
Proof.
  intros Hn Hq. destruct (normalize_length cfg jv Hq) as (jv' & H & Hl).
  exists jv'. repeat split; try assumption.
  apply get_parameters_short. lia.
Qed.

Lemma short_sweep_fails_in_get_parameters_witness :
  exists jv', normalize plain_config one_sample_sweep = Ok jv' /\
              List.length jv' = List.length one_sample_sweep /\
              get_parameters jv' = Raise IndexError.
Proof.
  apply (short_sweep_fails_in_get_parameters plain_config one_sample_sweep).
  - simpl. lia.
  - simpl. auto.
Defined.

(** C8 fails on the sweep [(0,1)] of one sample: the normalisation accepts
    it and returns it, Jsc is read from it, and the failure is the
    IndexError that the interpolation of Voc raises in [get_parameters]. *)
Lemma one_sample_passes_normalization :
  normalize plain_config one_sample_sweep = Ok one_sample_sweep /\
  get_Jsc one_sample_sweep = Ok (F64.of_Z 1) /\
  get_Voc one_sample_sweep = Raise IndexError /\
  get_parameters one_sample_sweep = Raise IndexError.
Proof.
  repeat split; vm_compute; reflexivity.
Qed.



(** C9 fails when a sample lies at V = 0.  The first two voltages of
    [(1,3),(1,1),(0,2),(2,-1)] are equal, and Jsc = 2 is read off the
    sample at V = 0: nothing is reversed or interpolated for it (on the
    reversed arrays the interpolation gives -1).  On [(0,3),(0,1),(2,-1)]
    the first two voltages are equal and [get_parameters] raises a
    TypeError before any value is computed. *)
Lemma equal_first_voltages_measured :
  (r0 <- iloc stalled_measured_sweep 0 ;; r1 <- iloc stalled_measured_sweep 1 ;;
   Ok (F64.eqb (V r0) (V r1))) = Ok true /\
  get_Jsc stalled_measured_sweep = Ok (F64.of_Z 2) /\
  Np.interp zero (rev (col_V stalled_measured_sweep))
                 (rev (col_C stalled_measured_sweep)) = Ok (F64.of_Z (-1)) /\
  get_Jsc stalled_measured_sweep
  <> Np.interp zero (rev (col_V stalled_measured_sweep))
                    (rev (col_C stalled_measured_sweep)) /\
  (r0 <- iloc stalled_twice_zero_sweep 0 ;; r1 <- iloc stalled_twice_zero_sweep 1 ;;
   Ok (F64.eqb (V r0) (V r1))) = Ok true /\
  get_Jsc stalled_twice_zero_sweep = Raise TypeError /\
  get_parameters stalled_twice_zero_sweep = Raise TypeError.
Proof.
  repeat split; try (vm_compute; reflexivity).
  vm_compute. discriminate.
Qed.

(** C10: on the sweep [(-1,1),(3,-1)] the computed PCE is -0.001, a small
    negative number; its string is "-0.00", which is not "0.00", and the
    table under the plot shows the four computed strings instead of the
    placeholder row. *)
Theorem negative_zero_PCE_is_plotted :
  exists p r,
    get_parameters_values negative_power_sweep = Ok p /\
    PCE p = F64.dec (-1) 3 /\
    F64.ltb (PCE p) zero = true /\
    get_parameters negative_power_sweep = Ok r /\
    r = Report "1" "0.50" "-200" "-0.00" /\
    PCE_str r <> "0.00"%string /\
    cellText (jv_plot negative_power_sweep "sweep"
                (Voc_str r) (Jsc_str r) (FF_str r) (PCE_str r))
    = [["1"; "0.50"; "-200"; "-0.00"]]%string /\
    table_values (Voc_str r) (Jsc_str r) (FF_str r) (PCE_str r)
    <> [placeholder].
Proof.
  eexists. eexists.
  split; [vm_compute; reflexivity|].
  split; [vm_compute; reflexivity|].
  split; [vm_compute; reflexivity|].
  split; [vm_compute; reflexivity|].
  split; [reflexivity|].
  split; [simpl; discriminate|].
  split; [vm_compute; reflexivity | vm_compute; discriminate].
Qed.

(** * The order of the floats, sorted arrays and the binary search *)

Lemma compare_key (x y : float) :
  SFcompare x y =
  if F64.is_nan x || F64.is_nan y then None
  else Some (if lex_ltb (key x) (key y) then Lt
             else if lex_eqb (key x) (key y) then Eq else Gt).
Proof.
  destruct x as [sx|[|]| |[|] mx ex], y as [sy|[|]| |[|] my ey];
    try reflexivity;
    try (destruct sx; reflexivity); try (destruct sy; reflexivity).
  all: cbn [SFcompare F64.is_nan orb key lex_ltb lex_eqb].
  all: change (Pos.compare_cont Eq mx my) with (Z.pos mx ?= Z.pos my).
  all: destruct (Z.compare_spec ex ey);
       destruct (Z.compare_spec (Z.pos mx) (Z.pos my)); cbn [CompOpp];
       match goal with |- Some ?c = Some (if ?a then _ else if ?b then _ else _) =>
         let Ha := fresh in let Hb := fresh in
         destruct a eqn:Ha; destruct b eqn:Hb; 
         try reflexivity; exfalso; lia end.
Qed.

Lemma ltb_key (x y : float) :
  F64.ltb x y = negb (F64.is_nan x) && negb (F64.is_nan y) && lex_ltb (key x) (key y).
Proof.
  unfold F64.ltb, SFltb. rewrite compare_key.
  destruct (F64.is_nan x), (F64.is_nan y); try reflexivity. simpl.
  destruct (lex_ltb (key x) (key y)); [reflexivity|].
  destruct (lex_eqb (key x) (key y)); reflexivity.
Qed.

Lemma eqb_key (x y : float) :
  F64.eqb x y = negb (F64.is_nan x) && negb (F64.is_nan y) && lex_eqb (key x) (key y).
Proof.
  unfold F64.eqb, SFeqb. rewrite compare_key.
  destruct (F64.is_nan x), (F64.is_nan y); try reflexivity. simpl.
  destruct (lex_ltb (key x) (key y)) eqn:L, (lex_eqb (key x) (key y)) eqn:E;
    try reflexivity.
  exfalso. unfold lex_ltb, lex_eqb in *.
  destruct (key x) as [[? ?] ?], (key y) as [[? ?] ?]. lia.
Qed.

Lemma geb_key (x y : float) :
  F64.geb x y = negb (F64.is_nan x) && negb (F64.is_nan y)
                && (lex_ltb (key y) (key x) || lex_eqb (key y) (key x)).
Proof.
  unfold F64.geb, SFleb. rewrite compare_key.
  destruct (F64.is_nan x), (F64.is_nan y); try reflexivity. simpl.
  destruct (lex_ltb (key y) (key x)); [reflexivity|].
  destruct (lex_eqb (key y) (key x)); reflexivity.
Qed.

Ltac float_order :=
  unfold F64.gtb in *; fold F64.ltb in *;
  rewrite ?ltb_key, ?eqb_key, ?geb_key in *;
  unfold lex_ltb, lex_eqb in *;
  repeat match goal with
         | H : context [key ?x] |- _ => destruct (key x) as [[? ?] ?]
         | |- context [key ?x] => destruct (key x) as [[? ?] ?]
         end;
  lia.

Lemma ltb_trans (a b c : float) :
  F64.ltb a b = true -> F64.ltb b c = true -> F64.ltb a c = true.
Proof. intros. float_order. Qed.

Lemma not_geb_ltb (k a : float) :
  F64.is_nan k = false -> F64.is_nan a = false ->
  F64.geb k a = false -> F64.ltb k a = true.
Proof. intros. float_order. Qed.
Lemma ltb_geb_trans (k a b : float) :
  F64.ltb a b = true -> F64.geb k b = true -> F64.geb k a = true.
Proof. intros. float_order. Qed.
Lemma gtb_test (k a b : float) :
  F64.gtb a b = true -> F64.geb k a = true -> F64.gtb k b = true.
Proof. intros. float_order. Qed.

Lemma rising_cons (a : float) (rest : list float) :
  rising (a :: rest) = true ->
  rising rest = true /\ Forall (fun b => F64.ltb a b = true) rest.
Proof.
  revert a. induction rest as [|b rest IH]; intros a H.
  - split; [reflexivity | constructor].
  - change (F64.ltb a b && rising (b :: rest) = true) in H.
    apply andb_prop in H. destruct H as [Hab Hr]. split; [exact Hr|].
    constructor; [exact Hab|].
    destruct (IH b Hr) as [_ Hb].
    eapply Forall_impl; [|exact Hb]. intros c Hc. exact (ltb_trans _ _ _ Hab Hc).
Qed.

Lemma rising_nth (arr : list float) :
  rising arr = true ->
  forall i j, (i < j < List.length arr)%nat ->
    F64.ltb (nth i arr F64.nan) (nth j arr F64.nan) = true.
Proof.
  induction arr as [|a rest IH]; intros H i j Hij; [simpl in Hij; lia|].
  destruct (rising_cons a rest H) as [Hr Hall].
  destruct j as [|j]; [lia|]. simpl in Hij. destruct i as [|i]; simpl.
  - rewrite Forall_forall in Hall. apply Hall, nth_In. lia.
  - apply IH; [exact Hr | lia].
Qed.

Lemma rising_at (arr : list float) (i j : Z) :
  rising arr = true -> 0 <= i -> i < j -> j < Np.len arr ->
  F64.ltb (Np.at_ arr i) (Np.at_ arr j) = true.
Proof.
  intros H Hi Hij Hj. unfold Np.at_, Np.len in *.
  apply rising_nth; [exact H | lia].
Qed.

Lemma rising_notnan (arr : list float) (i : Z) :
  rising arr = true -> 2 <= Np.len arr -> 0 <= i < Np.len arr ->
  F64.is_nan (Np.at_ arr i) = false.
Proof.
  intros H Hn Hi. destruct (Z.eq_dec i 0) as [->|Hi0].
  - pose proof (rising_at arr 0 1 H ltac:(lia) ltac:(lia) ltac:(lia)) as L.
    rewrite ltb_key in L. lia.
  - pose proof (rising_at arr (i - 1) i H ltac:(lia) ltac:(lia) ltac:(lia)) as L.
    rewrite ltb_key in L. lia.
Qed.

Lemma skipn_cons_nth {A : Type} (l : list A) (i : nat) (a d : A) (rest : list A) :
  skipn i l = a :: rest ->
  (i < List.length l)%nat /\ nth i l d = a /\ skipn (S i) l = rest.
Proof.
  revert i. induction l as [|x l IH]; intros i H.
  - destruct i; discriminate H.
  - destruct i as [|i]; simpl in *.
    + injection H as -> ->. repeat split. lia.
    + destruct (IH i H) as (Hl & Hn & Hs). repeat split; auto. lia.
Qed.

Section Search.

Variables (key : float) (arr : list float).
Hypothesis arr_rising : rising arr = true.
Hypothesis arr_two : 2 <= Np.len arr.
Hypothesis key_number : F64.is_nan key = false.

Lemma linear_search_spec (rest : list float) :
  forall i : nat,
    (1 <= i <= List.length arr)%nat -> skipn i arr = rest ->
    F64.geb key (Np.at_ arr (Z.of_nat i - 1)) = true ->
    bracket key arr (Np.linear_search key rest (Z.of_nat i)).
Proof using All.
  induction rest as [|a rest IH]; intros i Hi Hs Hg; simpl.
  - assert (i = List.length arr).
    { apply (f_equal (@List.length float)) in Hs.
      rewrite length_skipn in Hs. simpl in Hs. lia. }
    unfold bracket, Np.len. split; [lia|]. split; [exact Hg | left; lia].
  - destruct (skipn_cons_nth arr i a F64.nan rest Hs) as (Hl & Hn & Hs').
    assert (Ha : Np.at_ arr (Z.of_nat i) = a)
      by (unfold Np.at_; rewrite Nat2Z.id; exact Hn).
    destruct (F64.geb key a) eqn:G.
    + replace (Z.of_nat i + 1) with (Z.of_nat (S i)) by lia.
      apply IH; [lia | exact Hs' |].
      replace (Z.of_nat (S i) - 1) with (Z.of_nat i) by lia.
      rewrite Ha. exact G.
    + unfold bracket, Np.len. split; [lia|]. split; [exact Hg|].
      right. replace (Z.of_nat i - 1 + 1) with (Z.of_nat i) by lia.
      rewrite Ha. apply not_geb_ltb; auto.
      rewrite <- Ha. apply rising_notnan; auto. unfold Np.len. lia.
Qed.

Lemma bisect_spec (fuel : nat) :
  forall imin imax,
    1 <= imin -> imin <= imax -> imax <= Np.len arr ->
    imax - imin <= Z.of_nat fuel ->
    (forall i, 0 <= i < imin -> F64.geb key (Np.at_ arr i) = true) ->
    (forall i, imax <= i < Np.len arr -> F64.ltb key (Np.at_ arr i) = true) ->
    bracket key arr (Np.bisect fuel key arr imin imax).
Proof using All.
  assert (Hdone : forall imin imax,
    1 <= imin -> imax <= imin -> imin <= imax -> imax <= Np.len arr ->
    (forall i, 0 <= i < imin -> F64.geb key (Np.at_ arr i) = true) ->
    (forall i, imax <= i < Np.len arr -> F64.ltb key (Np.at_ arr i) = true) ->
    bracket key arr (imin - 1)).
  { intros imin imax H1 H2 H3 H4 Hlo Hhi. unfold bracket.
    split; [lia|]. split; [apply Hlo; lia|].
    destruct (Z.eq_dec imin (Np.len arr)); [left; lia | right].
    replace (imin - 1 + 1) with imin by lia. apply Hhi. lia. }
  induction fuel as [|fuel IH]; intros imin imax H1 H2 H3 Hf Hlo Hhi; simpl.
  - apply (Hdone imin imax); auto; lia.
  - destruct (imin <? imax) eqn:E; [|apply (Hdone imin imax); auto; lia].
    apply Z.ltb_lt in E.
    assert (Hh : 0 <= Z.shiftr (imax - imin) 1 < imax - imin).
    { rewrite Z.shiftr_div_pow2 by lia. change (2 ^ 1) with 2.
      split; [apply Z.div_pos; lia | apply Z.div_lt; lia]. }
    set (imid := imin + Z.shiftr (imax - imin) 1) in *.
    assert (Hmid : imin <= imid < imax) by (subst imid; lia).
    destruct (F64.geb key (Np.at_ arr imid)) eqn:G.
    + apply IH; try lia.
      * intros i Hi. destruct (Z.eq_dec i imid) as [->|]; [exact G|].
        apply (ltb_geb_trans key (Np.at_ arr i) (Np.at_ arr imid)); [|exact G].
        apply rising_at; auto; lia.
      * exact Hhi.
    + apply IH; try lia; [exact Hlo|].
      assert (L : F64.ltb key (Np.at_ arr imid) = true).
      { apply not_geb_ltb; auto. apply rising_notnan; auto. lia. }
      intros i Hi. destruct (Z.eq_dec i imid) as [->|]; [exact L|].
      apply (ltb_trans _ _ _ L). apply rising_at; auto; lia.
Qed.

End Search.

Lemma not_ltb_geb (k a : float) :
  F64.is_nan k = false -> F64.is_nan a = false ->
  F64.ltb k a = false -> F64.geb k a = true.
Proof. intros. float_order. Qed.

Section Search2.

Variables (key : float) (arr : list float).
Hypothesis arr_rising : rising arr = true.
Hypothesis arr_two : 2 <= Np.len arr.
Hypothesis key_number : F64.is_nan key = false.

Lemma geb_below (j : Z) :
  0 <= j < Np.len arr -> F64.geb key (Np.at_ arr j) = true ->
  forall i, 0 <= i <= j -> F64.geb key (Np.at_ arr i) = true.
Proof.
  intros Hj G i Hi. destruct (Z.eq_dec i j) as [->|]; [exact G|].
  apply (ltb_geb_trans key _ (Np.at_ arr j)); [|exact G].
  apply rising_at; [exact arr_rising | lia | lia | lia].
Qed.

Lemma ltb_above (j : Z) :
  0 <= j < Np.len arr -> F64.ltb key (Np.at_ arr j) = true ->
  forall i, j <= i < Np.len arr -> F64.ltb key (Np.at_ arr i) = true.
Proof.
  intros Hj L i Hi. destruct (Z.eq_dec i j) as [->|]; [exact L|].
  apply (ltb_trans _ _ _ L).
  apply rising_at; [exact arr_rising | lia | lia | lia].
Qed.

Lemma binary_search_with_guess_spec :
  let n := Np.len arr in
  let j := Np.binary_search_with_guess key arr 0 in
  if F64.gtb key (Np.at_ arr (n - 1)) then j = n
  else if F64.ltb key (Np.at_ arr 0) then j = -1
  else bracket key arr j.
Proof using All.
  intros n j. subst j. unfold Np.binary_search_with_guess. fold n.
  destruct (F64.gtb key (Np.at_ arr (n - 1))) eqn:Hlast; [reflexivity|].
  destruct (F64.ltb key (Np.at_ arr 0)) eqn:Hfirst; [reflexivity|].
  assert (Hnn : forall i, 0 <= i < n -> F64.is_nan (Np.at_ arr i) = false)
    by (intros; apply rising_notnan; auto).
  assert (G0 : F64.geb key (Np.at_ arr 0) = true)
    by (apply not_ltb_geb; auto; apply Hnn; lia).
  destruct (n <=? 4) eqn:Hsmall.
  - apply (linear_search_spec key arr arr_rising arr_two key_number (tl arr) 1).
    + unfold Np.len in *. lia.
    + destruct arr; reflexivity.
    + exact G0.
  - apply Z.leb_gt in Hsmall.
    replace (0 >? n - 3) with false by lia. cbn [Z.ltb Z.compare].
    change (1 - 1) with 0. rewrite Hfirst.
    change (1 + 1) with 2. change (1 + 2) with 3. change (1 + Np.LIKELY_IN_CACHE_SIZE) with 9.
    destruct (F64.ltb key (Np.at_ arr 1)) eqn:L1.
    { unfold bracket. fold n. split; [lia|]. split; [exact G0 | right; exact L1]. }
    assert (G1 : F64.geb key (Np.at_ arr 1) = true)
      by (apply not_ltb_geb; auto; apply Hnn; lia).
    destruct (F64.ltb key (Np.at_ arr 2)) eqn:L2.
    { unfold bracket. fold n. split; [lia|]. split; [exact G1 | right; exact L2]. }
    assert (G2 : F64.geb key (Np.at_ arr 2) = true)
      by (apply not_ltb_geb; auto; apply Hnn; lia).
    destruct (F64.ltb key (Np.at_ arr 3)) eqn:L3.
    { unfold bracket. fold n. split; [lia|]. split; [exact G2 | right; exact L3]. }
    assert (G3 : F64.geb key (Np.at_ arr 3) = true)
      by (apply not_ltb_geb; auto; apply Hnn; lia).
    cbv zeta.
    destruct ((1 <? n - Np.LIKELY_IN_CACHE_SIZE - 1) && F64.ltb key (Np.at_ arr 9)) eqn:Hc.
    + apply andb_prop in Hc. destruct Hc as [Hc L9].
      unfold Np.LIKELY_IN_CACHE_SIZE in Hc.
      apply bisect_spec; auto; try lia;
        try (intros i Hi; apply (geb_below 2); auto; lia);
        try (fold n; intros i Hi; apply (ltb_above 9); auto; lia).
    + apply bisect_spec; auto; try lia;
        try (intros i Hi; apply (geb_below 2); auto; lia);
        try (fold n; intros i Hi; lia).
Qed.

Lemma bracket_unique (j k : Z) :
  bracket key arr j -> bracket key arr k -> j = k.
Proof.
  intros (Hj & Gj & Nj) (Hk & Gk & Nk).
  destruct (Z.lt_trichotomy j k) as [H|[H|H]]; [exfalso | exact H | exfalso].
  - destruct Nj as [Nj|Nj]; [lia|].
    pose proof (geb_below k Hk Gk (j + 1) ltac:(lia)) as G. float_order.
  - destruct Nk as [Nk|Nk]; [lia|].
    pose proof (geb_below j Hj Gj (k + 1) ltac:(lia)) as G. float_order.
Qed.

End Search2.

Lemma interp_long (x : float) (xp fp : list float) :
  2 <= Np.len xp ->
  Np.interp x xp fp =
  if F64.is_nan x then Ok x
  else
    let n := Np.len xp in
    let j := Np.binary_search_with_guess x xp 0 in
    if j =? -1 then Ok (Np.at_ fp 0)
    else if j =? n then Ok (Np.at_ fp (n - 1))
    else if j =? n - 1 then Ok (Np.at_ fp j)
    else if F64.eqb (Np.at_ xp j) x then Ok (Np.at_ fp j)
    else Ok (Np.interp_between x xp fp j).
Proof.
  intros Hn. destruct xp as [|a [|b rest]];
    try (unfold Np.len in Hn; simpl in Hn; lia). reflexivity.
Qed.

Lemma bracket_exact (xp : list float) (x : float) (k : Z) :
  rising xp = true ->
  2 <= Np.len xp -> 0 <= k < Np.len xp ->
  F64.eqb (Np.at_ xp k) x = true -> bracket x xp k.
Proof.
  intros xp_rising Hn Hk E. unfold bracket.
  split; [exact Hk|]. split; [float_order|].
  destruct (Z.eq_dec k (Np.len xp - 1)); [left; assumption | right].
  pose proof (rising_at xp k (k + 1) xp_rising ltac:(lia) ltac:(lia) ltac:(lia)).
  float_order.
Qed.

(** At a sample point [numpy.interp] returns the value of the sample. *)
Lemma interp_exact (xp fp : list float) (x : float) (k : Z) :
  rising xp = true ->
  0 <= k < Np.len xp -> F64.eqb (Np.at_ xp k) x = true ->
  Np.interp x xp fp = Ok (Np.at_ fp k).
Proof.
  intros xp_rising Hk E.
  destruct (Z.le_gt_cases 2 (Np.len xp)) as [Hn|Hn].
  - rewrite interp_long by exact Hn.
    assert (Hx : F64.is_nan x = false) by float_order.
    rewrite Hx.
    pose proof (binary_search_with_guess_spec x xp xp_rising Hn Hx) as S.
    cbv zeta in S.
    pose proof (bracket_exact xp x k xp_rising Hn Hk E) as Bk.
    assert (Hlast : F64.gtb x (Np.at_ xp (Np.len xp - 1)) = false).
    { destruct (Z.eq_dec k (Np.len xp - 1)) as [<-|]; [float_order|].
      pose proof (rising_at xp k (Np.len xp - 1) xp_rising
                    ltac:(lia) ltac:(lia) ltac:(lia)). float_order. }
    assert (Hfirst : F64.ltb x (Np.at_ xp 0) = false).
    { destruct (Z.eq_dec k 0) as [->|]; [float_order|].
      pose proof (rising_at xp 0 k xp_rising ltac:(lia) ltac:(lia) ltac:(lia)).
      float_order. }
    rewrite Hlast, Hfirst in S. cbv zeta.
    assert (Ej : Np.binary_search_with_guess x xp 0 = k)
      by (eapply bracket_unique; eauto).
    rewrite Ej.
    replace (k =? -1) with false by lia.
    replace (k =? Np.len xp) with false by lia.
    destruct (k =? Np.len xp - 1); [reflexivity|].
    rewrite E. reflexivity.
  - destruct xp as [|a [|b rest]]; unfold Np.len in *; simpl in *; try lia.
    replace k with 0 by lia.
    destruct (F64.ltb x a), (F64.gtb x a); reflexivity.
Qed.

(** Below the first sample point the result is the first value. *)
Lemma interp_left (xp fp : list float) (x : float) :
  rising xp = true ->
  2 <= Np.len xp -> F64.ltb x (Np.at_ xp 0) = true ->
  Np.interp x xp fp = Ok (Np.at_ fp 0).
Proof.
  intros xp_rising Hn L. rewrite interp_long by exact Hn.
  assert (Hx : F64.is_nan x = false) by float_order. rewrite Hx.
  pose proof (binary_search_with_guess_spec x xp xp_rising Hn Hx) as S.
  cbv zeta in S.
  assert (Hlast : F64.gtb x (Np.at_ xp (Np.len xp - 1)) = false).
  { pose proof (rising_at xp 0 (Np.len xp - 1) xp_rising
                  ltac:(lia) ltac:(lia) ltac:(lia)). float_order. }
  rewrite Hlast, L in S. cbv zeta. rewrite S. reflexivity.
Qed.

(** Above the last sample point the result is the last value. *)
Lemma interp_right (xp fp : list float) (x : float) :
  rising xp = true ->
  2 <= Np.len xp -> F64.gtb x (Np.at_ xp (Np.len xp - 1)) = true ->
  Np.interp x xp fp = Ok (Np.at_ fp (Np.len xp - 1)).
Proof.
  intros xp_rising Hn G. rewrite interp_long by exact Hn.
  assert (Hx : F64.is_nan x = false) by float_order. rewrite Hx.
  pose proof (binary_search_with_guess_spec x xp xp_rising Hn Hx) as S.
  cbv zeta in S. rewrite G in S. cbv zeta. rewrite S.
  replace (Np.len xp =? -1) with false by lia.
  rewrite Z.eqb_refl. reflexivity.
Qed.

(** * Strictly monotonic sweeps *)

Section Monotonic.

Lemma at_col_V (jv : frame) (k : nat) (r : sample) :
  nth_error jv k = Some r -> Np.at_ (col_V jv) (Z.of_nat k) = V r.
Proof.
  intros H. unfold Np.at_, col_V. rewrite Nat2Z.id.
  apply nth_error_nth. rewrite nth_error_map, H. reflexivity.
Qed.

Lemma at_col_C (jv : frame) (k : nat) (r : sample) :
  nth_error jv k = Some r -> Np.at_ (col_C jv) (Z.of_nat k) = C r.
Proof.
  intros H. unfold Np.at_, col_C. rewrite Nat2Z.id.
  apply nth_error_nth. rewrite nth_error_map, H. reflexivity.
Qed.

Lemma len_col_V (jv : frame) : Np.len (col_V jv) = Z.of_nat (List.length jv).
Proof. unfold Np.len, col_V. rewrite length_map. reflexivity. Qed.

Lemma len_col_C (jv : frame) : Np.len (col_C jv) = Z.of_nat (List.length jv).
Proof. unfold Np.len, col_C. rewrite length_map. reflexivity. Qed.

Lemma contains_zero_nth (jv : frame) :
  contains zero (col_V jv) = true ->
  exists k r, nth_error jv k = Some r /\ at_zero_volt r = true.
Proof.
  unfold contains, col_V. rewrite existsb_exists.
  intros (v & Hin & Hv). apply in_map_iff in Hin.
  destruct Hin as (r & <- & Hr). apply In_nth_error in Hr.
  destruct Hr as (k & Hk). eauto.
Qed.

(** In a sweep of strictly increasing voltages no two samples lie at
    V = 0. *)
Lemma rising_one_zero (jv : frame) :
  rising (col_V jv) = true ->
  forall k r, nth_error jv k = Some r -> at_zero_volt r = true ->
              filter at_zero_volt jv = [r].
Proof.
  induction jv as [|a rest IH]; intros H k r Hk Hr; [destruct k; discriminate|].
  change (col_V (a :: rest)) with (V a :: col_V rest) in H.
  destruct (rising_cons _ _ H) as [Hrest Hall].
  rewrite Forall_forall in Hall. simpl.
  destruct k as [|k]; simpl in Hk.
  - injection Hk as ->. rewrite Hr. f_equal.
    clear - Hall Hr. induction rest as [|b rest IH]; [reflexivity|].
    simpl. assert (Hb : F64.ltb (V r) (V b) = true)
      by (apply Hall; simpl; auto).
    unfold at_zero_volt in *.
    replace (F64.eqb (V b) zero) with false by float_order.
    apply IH. intros x Hx. apply Hall. simpl. auto.
  - assert (Ha : F64.ltb (V a) (V r) = true).
    { apply Hall. unfold col_V. apply in_map. eapply nth_error_In, Hk. }
    unfold at_zero_volt in *.
    replace (F64.eqb (V a) zero) with false by float_order.
    apply (IH Hrest k r Hk Hr).
Qed.

(** On a sweep of strictly increasing voltages the sample at V = 0, when
    there is one, carries the value [numpy.interp] returns at 0. *)
Lemma get_Jsc_rising (jv : frame) :
  rising (col_V jv) = true -> (2 <= List.length jv)%nat ->
  get_Jsc jv = Np.interp zero (col_V jv) (col_C jv).
Proof.
  intros H Hn. destruct (contains zero (col_V jv)) eqn:Hz.
  - destruct (contains_zero_nth jv Hz) as (k & r & Hk & Hr).
    rewrite (get_Jsc_measured jv Hz), (rising_one_zero jv H k r Hk Hr).
    rewrite (interp_exact (col_V jv) (col_C jv) zero (Z.of_nat k) H).
    + rewrite (at_col_C jv k r Hk). reflexivity.
    + rewrite len_col_V.
      assert (k < List.length jv)%nat by (apply nth_error_Some; congruence).
      lia.
    + rewrite (at_col_V jv k r Hk). exact Hr.
  - unfold get_Jsc. rewrite Hz.
    destruct jv as [|r0 [|r1 rest]]; simpl in Hn; try lia.
    unfold iloc. cbn [nth_error bind]. unfold Jsc_scan.
    change (F64.ltb (V r0) (V r1) && rising (col_V (r1 :: rest)) = true) in H.
    apply andb_prop in H. destruct H as [H _]. rewrite H.
    reflexivity.
Qed.

End Monotonic.

Lemma at_rev (l : list float) (k : Z) :
  0 <= k < Np.len l -> Np.at_ (rev l) (Np.len l - 1 - k) = Np.at_ l k.
Proof.
  intros Hk. unfold Np.at_, Np.len in *.
  rewrite rev_nth by lia. f_equal. lia.
Qed.

Lemma len_rev (l : list float) : Np.len (rev l) = Np.len l.
Proof. unfold Np.len. rewrite length_rev. reflexivity. Qed.

(** X: Jsc by lookup is Jsc by interpolation (the comment of lines 25-29). *)
Theorem Jsc_lookup_is_interpolation (jv : frame) :
  (2 <= List.length jv)%nat ->
  (rising (col_V jv) = true ->
   get_Jsc jv = Np.interp zero (col_V jv) (col_C jv)) /\
  (rising (rev (col_V jv)) = true ->
   get_Jsc jv = Np.interp zero (rev (col_V jv)) (rev (col_C jv))).
Proof.
  intros Hn. split; intros H.
  - apply get_Jsc_rising; assumption.
  - rewrite <- col_V_rev in H.
    destruct (rising_sweep_reversed (rev jv) H) as [HJ _].
    rewrite rev_involutive in HJ. rewrite HJ.
    rewrite get_Jsc_rising by (rewrite ?length_rev; assumption).
    rewrite col_V_rev, col_C_rev. reflexivity.
Qed.

Lemma Jsc_lookup_is_interpolation_witness :
  get_Jsc six_point_sweep
  = Np.interp zero (col_V six_point_sweep) (col_C six_point_sweep) /\
  get_Jsc (rev six_point_sweep)
  = Np.interp zero (rev (col_V (rev six_point_sweep)))
                   (rev (col_C (rev six_point_sweep))).
Proof.
  split.
  - apply (Jsc_lookup_is_interpolation six_point_sweep); [simpl; lia | reflexivity].
  - apply (Jsc_lookup_is_interpolation (rev six_point_sweep));
      [simpl; lia | reflexivity].
Defined.

(** X: Voc at a measured zero of the current. *)
Theorem Voc_at_measured_zero (jv : frame) (r0 r1 r : sample) (k : nat) :
  iloc jv 0 = Ok r0 -> iloc jv 1 = Ok r1 ->
  nth_error jv k = Some r -> F64.eqb (C r) zero = true ->
  (F64.ltb (V r0) (V r1) = true /\ rising (rev (col_C jv)) = true) \/
  (F64.gtb (V r0) (V r1) = true /\ rising (col_C jv) = true) ->
  get_Voc jv = Ok (V r).
Proof.
  intros H0 H1 Hk Hr Hdir.
  assert (Hlen : (k < List.length jv)%nat) by (apply nth_error_Some; congruence).
  unfold get_Voc. rewrite H0, H1. cbn [bind]. unfold Voc_scan.
  destruct Hdir as [[Hf Hc]|[Hf Hc]].
  - unfold F64.gtb. fold (F64.ltb (V r1) (V r0)).
    rewrite (F64Facts.ltb_asym _ _ Hf).
    rewrite (interp_exact _ _ zero (Np.len (col_C jv) - 1 - Z.of_nat k) Hc).
    + replace (Np.len (col_C jv)) with (Np.len (col_V jv))
        by (rewrite len_col_V, len_col_C; reflexivity).
      rewrite at_rev by (rewrite len_col_V; lia).
      rewrite (at_col_V jv k r Hk). reflexivity.
    + rewrite len_rev, len_col_C. lia.
    + rewrite at_rev by (rewrite len_col_C; lia).
      rewrite (at_col_C jv k r Hk). exact Hr.
  - rewrite Hf.
    rewrite (interp_exact _ _ zero (Z.of_nat k) Hc).
    + rewrite (at_col_V jv k r Hk). reflexivity.
    + rewrite len_col_C. lia.
    + rewrite (at_col_C jv k r Hk). exact Hr.
Qed.

Lemma Voc_at_measured_zero_witness :
  get_Voc six_point_sweep = Ok (F64.of_Z 150).
Proof.
  apply (Voc_at_measured_zero six_point_sweep _ _
           (Sample (F64.of_Z 150) (F64.dec 0 1)) 4 eq_refl eq_refl eq_refl eq_refl).
  left. split; reflexivity.
Defined.

(** X: no extrapolation beyond the ends of a sweep. *)
Theorem no_extrapolation (jv : frame) (first last : sample) :
  nth_error jv 0 = Some first ->
  nth_error jv (List.length jv - 1) = Some last ->
  (2 <= List.length jv)%nat ->
  rising (col_V jv) = true ->
  (F64.gtb (V first) zero = true -> get_Jsc jv = Ok (C first)) /\
  (F64.ltb (V last) zero = true -> get_Jsc jv = Ok (C last)) /\
  (rising (rev (col_C jv)) = true ->
     (F64.gtb (C last) zero = true -> get_Voc jv = Ok (V last)) /\
     (F64.ltb (C first) zero = true -> get_Voc jv = Ok (V first))).
Proof.
  intros Hf Hl Hn Hr.
  assert (Hlast : Z.of_nat (List.length jv - 1) = Z.of_nat (List.length jv) - 1) by lia.
  pose proof (at_col_V jv 0 first Hf) as V0. pose proof (at_col_C jv 0 first Hf) as C0.
  pose proof (at_col_V jv _ last Hl) as Vn. pose proof (at_col_C jv _ last Hl) as Cn.
  rewrite Hlast in Vn, Cn. simpl Z.of_nat in V0, C0.
  split; [|split].
  - intros H. rewrite get_Jsc_rising by assumption.
    rewrite interp_left; rewrite ?len_col_V, ?V0, ?C0; auto; lia.
  - intros H. rewrite get_Jsc_rising by assumption.
    rewrite interp_right; rewrite ?len_col_V, ?Vn, ?Cn; auto; lia.
  - intros Hc.
    assert (Hscan : get_Voc jv = Np.interp zero (rev (col_C jv)) (rev (col_V jv))).
    { unfold get_Voc. destruct jv as [|r0 [|r1 rest]]; simpl in Hn; try lia.
      unfold iloc. cbn [nth_error bind]. unfold Voc_scan, F64.gtb.
      fold (F64.ltb (V r1) (V r0)).
      change (F64.ltb (V r0) (V r1) && rising (col_V (r1 :: rest)) = true) in Hr.
      apply andb_prop in Hr. destruct Hr as [Hr _].
      rewrite (F64Facts.ltb_asym _ _ Hr). reflexivity. }
    assert (R0 : forall l, Np.len l = Z.of_nat (List.length jv) ->
                           Np.at_ (rev l) 0 = Np.at_ l (Z.of_nat (List.length jv) - 1)).
    { intros l El. rewrite <- (at_rev l) by lia. f_equal. lia. }
    assert (Rn : forall l, Np.len l = Z.of_nat (List.length jv) ->
                           Np.at_ (rev l) (Z.of_nat (List.length jv) - 1) = Np.at_ l 0).
    { intros l El. rewrite <- (at_rev l 0) by lia. f_equal. lia. }
    split; intros H; rewrite Hscan.
    + rewrite interp_left; rewrite ?len_rev, ?len_col_C; auto; try lia.
      * rewrite R0 by apply len_col_V. rewrite Vn. reflexivity.
      * rewrite R0 by apply len_col_C. rewrite Cn. exact H.
    + rewrite interp_right; rewrite ?len_rev, ?len_col_C; auto; try lia.
      * rewrite Rn by apply len_col_V. rewrite V0. reflexivity.
      * rewrite Rn by apply len_col_C. rewrite C0. exact H.
Qed.

(** On [(1,5),(2,4),(3,3)] neither axis is crossed: Jsc is the current of
    the first sample and Voc the voltage of the last one. *)
Lemma no_extrapolation_witness :
  get_Jsc partial_sweep = Ok (F64.of_Z 5) /\
  get_Voc partial_sweep = Ok (F64.of_Z 3).
Proof.
  pose proof (no_extrapolation partial_sweep _ _ eq_refl eq_refl
                ltac:(simpl; lia) eq_refl) as (HJ & _ & HV).
  split; [apply HJ; reflexivity | apply (HV eq_refl); reflexivity].
Defined.

(** * Outcomes of get_parameters *)

Lemma get_Voc_returns (jv : frame) :
  (2 <= List.length jv)%nat -> exists v, get_Voc jv = Ok v.
Proof.
  intros Hn. unfold get_Voc.
  destruct jv as [|r0 [|r1 rest]]; simpl in Hn; try lia.
  unfold iloc. cbn [nth_error bind].
  destruct (Voc_scan r0 r1); apply NpFacts.interp_returns.
  - unfold col_C. simpl. intros E. apply app_eq_nil in E. destruct E; discriminate.
  - discriminate.
Qed.

Lemma get_Jsc_interpolated_returns (jv : frame) :
  (2 <= List.length jv)%nat -> contains zero (col_V jv) = false ->
  exists j, get_Jsc jv = Ok j.
Proof.
  intros Hn Hz. unfold get_Jsc. rewrite Hz.
  destruct jv as [|r0 [|r1 rest]]; simpl in Hn; try lia.
  unfold iloc. cbn [nth_error bind].
  destruct (Jsc_scan r0 r1); apply NpFacts.interp_returns.
  - discriminate.
  - unfold col_V. simpl. intros E. apply app_eq_nil in E. destruct E; discriminate.
Qed.

(** X: which sweeps [get_parameters] accepts, and how it fails on the
    others. *)
Theorem get_parameters_outcome (jv : frame) :
  let rows := List.length jv in
  let at_zero := List.length (filter at_zero_volt jv) in
  ((rows < 2)%nat -> get_parameters jv = Raise IndexError) /\
  ((2 <= rows)%nat -> (2 <= at_zero)%nat ->
     get_parameters jv = Raise TypeError) /\
  ((2 <= rows)%nat -> (at_zero <= 1)%nat ->
     exists r, get_parameters jv = Ok r).
Proof.
  intros rows at_zero. subst rows at_zero. split; [|split].
  - apply get_parameters_short.
  - intros Hn Hz. apply get_parameters_Raise.
    unfold get_parameters_values. rewrite get_Jsc_measured.
    + destruct (filter at_zero_volt jv) as [|a [|b rest]]; simpl in Hz; try lia.
      reflexivity.
    + rewrite contains_zero_filter.
      destruct (filter at_zero_volt jv); simpl in *; [lia | reflexivity].
  - intros Hn Hz.
    assert (HJ : exists j, get_Jsc jv = Ok j).
    { destruct (filter at_zero_volt jv) as [|a [|b rest]] eqn:E; simpl in Hz; try lia.
      - apply get_Jsc_interpolated_returns; [exact Hn|].
        rewrite contains_zero_filter, E. reflexivity.
      - exists (C a). apply (get_Jsc_measured_once jv a E). }
    destruct HJ as (j & HJ). destruct (get_Voc_returns jv Hn) as (v & HV).
    unfold get_parameters, get_parameters_values. rewrite HJ, HV. simpl. eauto.
Qed.

(** X: the two tests of the scan direction agree exactly when the first
    two voltages are ordered one way or the other. *)
Theorem scan_tests_agree (r0 r1 : sample) :
  Jsc_scan r0 r1 = Voc_scan r0 r1 <->
  F64.ltb (V r0) (V r1) || F64.gtb (V r0) (V r1) = true.
Proof.
  unfold Jsc_scan, Voc_scan, F64.gtb. fold (F64.ltb (V r1) (V r0)).
  destruct (F64.ltb (V r0) (V r1)) eqn:L.
  - rewrite (F64Facts.ltb_asym _ _ L). simpl. tauto.
  - destruct (F64.ltb (V r1) (V r0)); simpl; split; congruence.
Qed.

(** * The maximum power point *)

Lemma max_of_spec (rest : list float) :
  forall first,
    F64.is_nan first = false ->
    Forall (fun p => F64.is_nan p = false) rest ->
    In (Np.max_of first rest) (first :: rest) /\
    Forall (fun p => F64.geb (Np.max_of first rest) p = true) (first :: rest).
Proof.
  unfold Np.max_of.
  induction rest as [|x rest IH]; intros first Hf Hr; simpl.
  - split; [auto|]. constructor; [float_order | constructor].
  - inversion Hr as [|? ? Hx Hrest]; subst.
    set (acc := if F64.gtb first x then first else x).
    assert (Hacc : F64.is_nan acc = false) by (subst acc; destruct (F64.gtb first x); assumption).
    destruct (IH acc Hacc Hrest) as (Hin & Hall).
    inversion Hall as [|? ? Ha Hall']; subst.
    assert (G1 : F64.geb acc first = true)
      by (subst acc; destruct (F64.gtb first x) eqn:L; float_order).
    assert (G2 : F64.geb acc x = true)
      by (subst acc; destruct (F64.gtb first x) eqn:L; float_order).
    split.
    + destruct Hin as [Hin|Hin]; [|auto].
      subst acc. destruct (F64.gtb first x); rewrite <- Hin; auto.
    + constructor; [float_order|]. constructor; [float_order | exact Hall'].
Qed.

(** X: Wmax is the largest of the products V*C. *)
Theorem Wmax_is_largest_product (jv : frame) :
  jv <> [] ->
  Forall (fun p => F64.is_nan p = false) (mul_VC jv) ->
  In (get_Wmax jv) (mul_VC jv) /\
  Forall (fun p => F64.geb (get_Wmax jv) p = true) (mul_VC jv).
Proof.
  intros Hne Hnan. unfold get_Wmax, Np.amax.
  assert (E : filter (fun x => negb (F64.is_nan x)) (mul_VC jv) = mul_VC jv).
  { clear Hne. induction Hnan as [|p ps Hp _ IH]; simpl; [reflexivity|].
    rewrite Hp, IH. reflexivity. }
  rewrite E. destruct (mul_VC jv) as [|p ps] eqn:Ep.
  - destruct jv; [congruence | discriminate Ep].
  - inversion Hnan; subst. apply max_of_spec; assumption.
Qed.

Lemma Wmax_is_largest_product_witness :
  In (get_Wmax six_point_sweep) (mul_VC six_point_sweep) /\
  Forall (fun p => F64.geb (get_Wmax six_point_sweep) p = true)
         (mul_VC six_point_sweep).
Proof.
  apply Wmax_is_largest_product.
  - discriminate.
  - repeat constructor.
Defined.

(** * Sign changes commute with rounding *)

Lemma binary_round_aux_opp (s : bool) (m e : Z) (l : location) :
  F64.opp (binary_round_aux F64.prec F64.emax s m e l)
  = binary_round_aux F64.prec F64.emax (negb s) m e l.
Proof.
  unfold binary_round_aux.
  destruct (shr_fexp F64.prec F64.emax m e l) as [mrs1 e1].
  destruct (shr_fexp F64.prec F64.emax _ e1 loc_Exact) as [mrs2 e2].
  destruct (shr_m mrs2); try reflexivity.
  destruct (e2 <=? F64.emax - F64.prec); reflexivity.
Qed.

Lemma opp_involutive (x : float) : F64.opp (F64.opp x) = x.
Proof. destruct x as [s|s| |s m e]; simpl; rewrite ?negb_involutive; reflexivity. Qed.

Lemma mul_opp_l (x y : float) : F64.mul (F64.opp x) y = F64.opp (F64.mul x y).
Proof.
  destruct x as [sx|sx| |sx mx ex], y as [sy|sy| |sy my ey]; simpl;
    try reflexivity; try (rewrite negb_xorb_l; reflexivity).
  unfold F64.mul, SFmul. rewrite binary_round_aux_opp, negb_xorb_l. reflexivity.
Qed.

Lemma mul_opp_r (x y : float) : F64.mul x (F64.opp y) = F64.opp (F64.mul x y).
Proof.
  destruct x as [sx|sx| |sx mx ex], y as [sy|sy| |sy my ey]; simpl;
    try reflexivity; try (rewrite negb_xorb_r; reflexivity).
  unfold F64.mul, SFmul. rewrite binary_round_aux_opp, negb_xorb_r. reflexivity.
Qed.

Lemma div_opp_l (x y : float) : F64.div (F64.opp x) y = F64.opp (F64.div x y).
Proof.
  destruct x as [sx|sx| |sx mx ex], y as [sy|sy| |sy my ey]; simpl;
    try reflexivity; try (rewrite negb_xorb_l; reflexivity).
  unfold F64.div, SFdiv.
  destruct (SFdiv_core_binary F64.prec F64.emax (Z.pos mx) ex (Z.pos my) ey)
    as [[q e'] l].
  rewrite binary_round_aux_opp, negb_xorb_l. reflexivity.
Qed.

Lemma neg_V_involutive (jv : frame) : map neg_V (map neg_V jv) = jv.
Proof.
  rewrite map_map. rewrite <- (map_id jv) at 2. apply map_ext.
  intros [v c]. unfold neg_V. simpl. rewrite opp_involutive. reflexivity.
Qed.

Lemma neg_C_involutive (jv : frame) : map neg_C (map neg_C jv) = jv.
Proof.
  rewrite map_map. rewrite <- (map_id jv) at 2. apply map_ext.
  intros [v c]. unfold neg_C. simpl. rewrite opp_involutive. reflexivity.
Qed.

Lemma neg_V_neg_C (jv : frame) :
  map neg_V (map neg_C jv) = map neg_C (map neg_V jv).
Proof. rewrite !map_map. apply map_ext. intros [v c]. reflexivity. Qed.

Lemma valid_frame_neg_C (jv : frame) :
  valid_frame jv -> valid_frame (map neg_C jv).
Proof.
  induction 1 as [|r rest [Hv Hc] _ IH]; simpl; constructor; auto.
  split; [exact Hv|]. simpl. destruct (C r); exact Hc.
Qed.

(** X: correcting the quadrant twice gives the sweep back. *)
Theorem fix_quadrant_involutive (jv : frame) (q : Z) :
  valid_frame jv -> In q [2; 3; 4] ->
  exists jv', fix_quadrant jv q = Ok jv' /\ fix_quadrant jv' q = Ok jv.
Proof.
  intros Hv [<-|[<-|[<-|[]]]]; unfold fix_quadrant; simpl; eexists;
    (split; [reflexivity|]); f_equal.
  - rewrite (mul_V_minus_one jv Hv).
    rewrite mul_V_minus_one by (apply valid_frame_neg_V, Hv).
    apply neg_V_involutive.
  - rewrite (mul_V_minus_one jv Hv).
    rewrite (mul_C_minus_one (map neg_V jv)) by (apply valid_frame_neg_V, Hv).
    rewrite mul_V_minus_one
      by (apply valid_frame_neg_C, valid_frame_neg_V, Hv).
    rewrite mul_C_minus_one
      by (apply valid_frame_neg_V, valid_frame_neg_C, valid_frame_neg_V, Hv).
    rewrite neg_V_neg_C, neg_V_involutive. apply neg_C_involutive.
  - rewrite (mul_C_minus_one jv Hv).
    rewrite mul_C_minus_one by (apply valid_frame_neg_C, Hv).
    apply neg_C_involutive.
Qed.

Lemma fix_quadrant_involutive_witness :
  exists jv', fix_quadrant six_point_sweep 3 = Ok jv' /\
              fix_quadrant jv' 3 = Ok six_point_sweep.
Proof.
  apply fix_quadrant_involutive; [exact six_point_sweep_valid | simpl; auto].
Defined.

Lemma mul_VC_neg_V (jv : frame) :
  mul_VC (map neg_V jv) = map F64.opp (mul_VC jv).
Proof.
  unfold mul_VC. rewrite !map_map. apply map_ext. intros [v c]. apply mul_opp_l.
Qed.

Lemma mul_VC_neg_C (jv : frame) :
  mul_VC (map neg_C jv) = map F64.opp (mul_VC jv).
Proof.
  unfold mul_VC. rewrite !map_map. apply map_ext. intros [v c]. apply mul_opp_r.
Qed.

(** X: what the quadrant correction does to the power of each sample. *)
Theorem fix_quadrant_power (jv jv' : frame) (q : Z) :
  valid_frame jv -> fix_quadrant jv q = Ok jv' ->
  (q = 3 -> mul_VC jv' = mul_VC jv /\ get_Wmax jv' = get_Wmax jv) /\
  (q = 2 \/ q = 4 -> mul_VC jv' = map F64.opp (mul_VC jv)).
Proof.
  intros Hv H. split.
  - intros ->. unfold fix_quadrant in H. simpl in H. injection H as <-.
    rewrite (mul_V_minus_one jv Hv).
    rewrite mul_C_minus_one by (apply valid_frame_neg_V, Hv).
    assert (E : mul_VC (map neg_C (map neg_V jv)) = mul_VC jv).
    { rewrite mul_VC_neg_C, mul_VC_neg_V, map_map.
      rewrite <- (map_id (mul_VC jv)) at 2. apply map_ext, opp_involutive. }
    split; [exact E|]. unfold get_Wmax. rewrite E. reflexivity.
  - intros [-> | ->]; unfold fix_quadrant in H; simpl in H; injection H as <-.
    + rewrite (mul_V_minus_one jv Hv). apply mul_VC_neg_V.
    + rewrite (mul_C_minus_one jv Hv). apply mul_VC_neg_C.
Qed.

Lemma fix_quadrant_power_witness :
  exists jv', fix_quadrant six_point_sweep 3 = Ok jv' /\
              get_Wmax jv' = get_Wmax six_point_sweep.
Proof.
  eexists. split; [reflexivity|].
  apply (fix_quadrant_power six_point_sweep _ 3 six_point_sweep_valid eq_refl).
  reflexivity.
Defined.

(** * The quadrant correction and the unit conversion *)

Section Conversion.

Variable k : float.

Lemma div_C_neg_V jv : div_C k (map neg_V jv) = map neg_V (div_C k jv).
Proof. unfold div_C. rewrite !map_map. apply map_ext. intros [v c]. reflexivity. Qed.

Lemma div_C_neg_C jv : div_C k (map neg_C jv) = map neg_C (div_C k jv).
Proof.
  unfold div_C. rewrite !map_map. apply map_ext. intros [v c].
  unfold neg_C. simpl. rewrite div_opp_l. reflexivity.
Qed.

Lemma mul_C_neg_V jv : mul_C k (map neg_V jv) = map neg_V (mul_C k jv).
Proof. unfold mul_C. rewrite !map_map. apply map_ext. intros [v c]. reflexivity. Qed.

Lemma mul_C_neg_C jv : mul_C k (map neg_C jv) = map neg_C (mul_C k jv).
Proof.
  unfold mul_C. rewrite !map_map. apply map_ext. intros [v c].
  unfold neg_C. simpl. rewrite mul_opp_l. reflexivity.
Qed.

Lemma mul_V_neg_V jv : mul_V k (map neg_V jv) = map neg_V (mul_V k jv).
Proof.
  unfold mul_V. rewrite !map_map. apply map_ext. intros [v c].
  unfold neg_V. simpl. rewrite mul_opp_l. reflexivity.
Qed.

Lemma mul_V_neg_C jv : mul_V k (map neg_C jv) = map neg_C (mul_V k jv).
Proof. unfold mul_V. rewrite !map_map. apply map_ext. intros [v c]. reflexivity. Qed.

End Conversion.

(** X: the quadrant correction commutes with the unit conversion. *)
Theorem normalize_quadrant (cfg : config) (jv jv1 : frame) :
  valid_frame jv ->
  normalize (with_quadrant 1 cfg) jv = Ok jv1 ->
  normalize (with_quadrant 2 cfg) jv = Ok (map neg_V jv1) /\
  normalize (with_quadrant 3 cfg) jv = Ok (map neg_C (map neg_V jv1)) /\
  normalize (with_quadrant 4 cfg) jv = Ok (map neg_C jv1).
Proof.
  intros Hv H. unfold normalize in *.
  change (fix_quadrant_if_needed (with_quadrant 1 cfg) jv) with (Ok jv) in H.
  change (fix_quadrant_if_needed (with_quadrant 2 cfg) jv)
    with (Ok (mul_V minus_one jv)).
  change (fix_quadrant_if_needed (with_quadrant 3 cfg) jv)
    with (Ok (mul_C minus_one (mul_V minus_one jv))).
  change (fix_quadrant_if_needed (with_quadrant 4 cfg) jv)
    with (Ok (mul_C minus_one jv)).
  unfold with_quadrant in *.
  cbn [current carea ucurrent uarea uvoltage bind] in *.
  injection H as <-.
  rewrite (mul_V_minus_one jv Hv), (mul_C_minus_one jv Hv).
  rewrite (mul_C_minus_one (map neg_V jv)) by (apply valid_frame_neg_V, Hv).
  destruct (negb (upper (current cfg) =? "J")%string);
  destruct (negb (exponent_value (ucurrent cfg) =? 0)
            || negb (exponent_value (uarea cfg) =? 0));
  destruct (negb (exponent_value (uvoltage cfg) =? 0));
    rewrite ?div_C_neg_C, ?div_C_neg_V, ?mul_C_neg_C, ?mul_C_neg_V,
            ?mul_V_neg_C, ?mul_V_neg_V; auto.
Qed.

Lemma normalize_quadrant_witness :
  normalize (with_quadrant 3 raw_current_config) six_point_sweep
  = (jv1 <- normalize raw_current_config six_point_sweep ;;
     Ok (map neg_C (map neg_V jv1))).
Proof.
  destruct (normalize raw_current_config six_point_sweep)
    as [jv1|e] eqn:E; [|vm_compute in E; discriminate E].
  apply (normalize_quadrant raw_current_config
           six_point_sweep jv1 six_point_sweep_valid E).
Defined.

(** * Which values print as "0.00" *)

Section Digits.

Local Open Scope string_scope.

Lemma no_dot_NilEmpty (u : Decimal.uint) :
  no_dot (NilEmpty.string_of_uint u) = true.
Proof. induction u; simpl; auto. Qed.

Lemma no_dot_digits (n : Z) : no_dot (F64.digits n) = true.
Proof.
  unfold F64.digits, NilZero.string_of_uint.
  destruct (N.to_uint (Z.to_N n)) eqn:E; try reflexivity;
    rewrite <- E; apply no_dot_NilEmpty.
Qed.

Lemma split_at_dot (a a' b b' : string) :
  no_dot a = true -> no_dot a' = true ->
  a ++ String "." b = a' ++ String "." b' -> a = a' /\ b = b'.
Proof.
  revert a'. induction a as [|c a IH]; intros [|c' a'] Ha Ha' E; simpl in *.
  - injection E as E. auto.
  - injection E as E _. subst c'. simpl in Ha'. discriminate Ha'.
  - injection E as E _. subst c. simpl in Ha. discriminate Ha.
  - injection E as Ec E. apply andb_prop in Ha, Ha'.
    destruct (IH a' (proj2 Ha) (proj2 Ha') E) as [-> ->]. subst. auto.
Qed.

Lemma to_uint_not_Nil (n : N) : N.to_uint n <> Decimal.Nil.
Proof.
  intros E. pose proof (DecimalN.Unsigned.of_to n) as H. rewrite E in H.
  simpl in H. subst n. discriminate E.
Qed.

(** The decimal digits determine the number. *)
Lemma digits_inj (a b : Z) :
  0 <= a -> 0 <= b -> F64.digits a = F64.digits b -> a = b.
Proof.
  intros Ha Hb E. unfold F64.digits in E.
  apply (f_equal NilZero.uint_of_string) in E.
  rewrite !NilZero.usu in E by apply to_uint_not_Nil.
  injection E as E. apply DecimalN.Unsigned.to_uint_inj in E. lia.
Qed.

Lemma hundredths_zero (k : Z) :
  0 <= k < 100 -> F64.zfill 2 (F64.digits k) = "00" -> k = 0.
Proof.
  intros Hk E.
  assert (H : forallb (fun i => implb (F64.zfill 2 (F64.digits (Z.of_nat i)) =? "00")
                                      (Z.of_nat i =? 0)%Z)
                      (seq 0 100) = true) by (vm_compute; reflexivity).
  rewrite forallb_forall in H. specialize (H (Z.to_nat k)).
  rewrite Z2Nat.id in H by lia. rewrite E in H. simpl in H.
  assert (Hin : In (Z.to_nat k) (seq 0 100)) by (apply in_seq; lia).
  specialize (H Hin). lia.
Qed.

Lemma fixed_2_zero (n : Z) : 0 <= n -> (F64.fixed n 2 = "0.00" <-> n = 0).
Proof.
  intros Hn. split; [|intros ->; reflexivity].
  unfold F64.fixed. change (10 ^ Z.of_nat 2)%Z with 100%Z.
  change "0.00" with (F64.digits 0 ++ String "." "00"). intros E.
  apply split_at_dot in E; try apply no_dot_digits.
  destruct E as [Eq Er].
  apply digits_inj in Eq; [|apply Z.div_pos; lia | lia].
  apply hundredths_zero in Er; [|apply Z.mod_pos_bound; lia].
  rewrite (Z.div_mod n 100) by lia. lia.
Qed.

End Digits.

Lemma scaled_nonneg (m : positive) (e : Z) (p : nat) : 0 <= F64.scaled m e p.
Proof.
  unfold F64.scaled, F64.round_half_even.
  assert (Hn : 0 < Z.pos m * 10 ^ Z.of_nat p) by (apply Z.mul_pos_pos; lia).
  destruct (0 <=? e) eqn:He.
  - apply Z.mul_nonneg_nonneg; [lia | apply Z.pow_nonneg; lia].
  - apply Z.leb_gt in He.
    assert (Hd : 0 < 2 ^ (- e)) by (apply Z.pow_pos_nonneg; lia).
    pose proof (Z.div_pos (Z.pos m * 10 ^ Z.of_nat p) (2 ^ (- e)) ltac:(lia) Hd).
    destruct (_ ?= _); [destruct (Z.even _)| |]; lia.
Qed.

(** A positive float rounds to 0.00 exactly when it is at most 1/200. *)
Lemma scaled_2_zero (m : positive) (e : Z) :
  F64.scaled m e 2 = 0 <-> 200 * Z.pos m <= 2 ^ (- e).
Proof.
  unfold F64.scaled. change (10 ^ Z.of_nat 2) with 100.
  destruct (0 <=? e) eqn:He.
  - apply Z.leb_le in He.
    assert (0 < 2 ^ e) by (apply Z.pow_pos_nonneg; lia).
    assert (2 ^ (- e) <= 1).
    { destruct (Z.eq_dec e 0) as [->|]; [simpl; lia|].
      rewrite Z.pow_neg_r by lia. lia. }
    split; nia.
  - apply Z.leb_gt in He.
    assert (Hd : 0 < 2 ^ (- e)) by (apply Z.pow_pos_nonneg; lia).
    set (d := 2 ^ (- e)) in *. set (n := Z.pos m * 100).
    assert (Hn : 0 < n) by (subst n; lia).
    unfold F64.round_half_even.
    pose proof (Z.div_mod n d ltac:(lia)) as Hdm.
    pose proof (Z.mod_pos_bound n d Hd) as Hr.
    pose proof (Z.div_pos n d ltac:(lia) Hd) as Hq.
    replace (200 * Z.pos m) with (2 * n) by (subst n; lia).
    destruct (Z.compare_spec (2 * (n mod d)) d) as [C|C|C].
    + destruct (Z.even (n / d)) eqn:Ev.
      * split; intros H; [nia|].
        destruct (Z.eq_dec (n / d) 0); [assumption | nia].
      * split; intros H; [lia|]. exfalso.
        assert (n / d = 0) by (destruct (Z.eq_dec (n / d) 0); [assumption | nia]).
        rewrite H0 in Ev. discriminate Ev.
    + split; intros H; [nia|]. destruct (Z.eq_dec (n / d) 0); [assumption | nia].
    + split; intros H; [lia|]. exfalso.
      assert (n / d = 0) by (destruct (Z.eq_dec (n / d) 0); [assumption | nia]).
      nia.
Qed.

(** The string of a value is "0.00" exactly for +0 and for the positive
    values up to 1/200. *)
Lemma format_2_zero (x : float) :
  F64.format x 2 = "0.00"%string <-> at_most_half_a_hundredth x.
Proof.
  destruct x as [[|]|[|]| |[|] m e]; simpl;
    try (split; [discriminate | contradiction]).
  - split; [auto | reflexivity].
  - change (F64.fixed (F64.scaled m e 2) 2 = "0.00"%string <->
            200 * Z.pos m <= 2 ^ (- e)).
    rewrite fixed_2_zero by apply scaled_nonneg. apply scaled_2_zero.
Qed.

Lemma table_placeholder_iff (p : parameters) :
  table_values (F64.format (Voc p) 0) (F64.format (Jsc p) 2)
               (F64.format (FF p) 0) (F64.format (PCE p) 2) = [placeholder]
  <-> at_most_half_a_hundredth (PCE p).
Proof.
  rewrite <- format_2_zero. unfold table_values.
  destruct (String.eqb_spec (F64.format (PCE p) 2) "0.00") as [E|E]; simpl.
  - tauto.
  - split; [|contradiction]. intros [= _ _ _ H].
    exfalso. exact (format_not_placeholder _ _ H).
Qed.

(** X: the values of PCE for which the plot shows the placeholder row. *)
Theorem dark_scan_threshold (jv : frame) (filename : string) (p : parameters) :
  get_parameters_values jv = Ok p ->
  let r := to_strings p in
  get_parameters jv = Ok r /\
  (cellText (jv_plot jv filename (Voc_str r) (Jsc_str r) (FF_str r) (PCE_str r))
   = [placeholder]
   <-> at_most_half_a_hundredth (PCE p)).
Proof.
  intros Hp r. split.
  - apply get_parameters_Ok. eauto.
  - apply table_placeholder_iff.
Qed.

(** PCE = 0.0049 (as a float) shows the placeholder row; PCE = 0.0051
    does not. *)
Lemma dark_scan_threshold_witness :
  cellText (jv_plot dark_sweep "dark" "0" "0.00" "nan" "0.00") = [placeholder] /\
  at_most_half_a_hundredth (F64.dec 49 4) /\
  ~ at_most_half_a_hundredth (F64.dec 51 4).
Proof.
  split; [|split].
  - apply (dark_scan_threshold dark_sweep "dark"
             (Parameters zero zero F64.nan zero) eq_refl). exact I.
  - vm_compute. discriminate.
  - vm_compute. intros H. apply H. reflexivity.
Defined.

Lemma div_negative_signed (w : float) (m : positive) (e : Z) :
  F64.ltb w zero = true ->
  F64.signed true (F64.div w (S754_finite false m e)).
Proof.
  intros H.
  destruct w as [s|[|]| |[|] mw ew]; try discriminate H; try exact eq_refl.
  unfold F64.div, SFdiv.
  pose proof (F64Facts.div_core_nonneg mw m ew e) as Hq.
  destruct (SFdiv_core_binary F64.prec F64.emax (Z.pos mw) ew (Z.pos m) e)
    as [[q e'] l]; simpl in Hq.
  apply (F64Facts.binary_round_aux_signed true), Hq.
Qed.

Lemma format_signed_minus (x : float) (p : nat) :
  F64.signed true x -> exists rest, F64.format x p = String "-" rest.
Proof.
  destruct x as [s|s| |s m e]; simpl; intros H; try contradiction; subst;
    simpl; eauto.
Qed.

(** X: a negative maximum power is always shown in the table. *)
Theorem negative_power_is_shown (jv : frame) (filename : string) (r : report) :
  get_parameters jv = Ok r ->
  F64.ltb (get_Wmax jv) zero = true ->
  (exists rest, PCE_str r = String "-" rest) /\
  cellText (jv_plot jv filename (Voc_str r) (Jsc_str r) (FF_str r) (PCE_str r))
  = [[Voc_str r; Jsc_str r; FF_str r; PCE_str r]].
Proof.
  intros Hr HW. apply get_parameters_Ok in Hr. destruct Hr as (p & Hp & ->).
  apply get_parameters_values_Ok in Hp. destruct Hp as (_ & _ & _ & HP).
  assert (Hs : exists rest, F64.format (PCE p) 2 = String "-" rest).
  { apply format_signed_minus. rewrite HP.
    change (F64.of_Z 1000) with (S754_finite false 8796093022208000 (-43)).
    apply div_negative_signed, HW. }
  split; [exact Hs|]. destruct Hs as (rest & Hs).
  unfold jv_plot, table_values, to_strings. simpl. rewrite Hs. reflexivity.
Qed.

Lemma negative_power_is_shown_witness :
  cellText (jv_plot negative_power_sweep "sweep" "1" "0.50" "-200" "-0.00")
  = [["1"; "0.50"; "-200"; "-0.00"]]%string.
Proof.
  apply (negative_power_is_shown negative_power_sweep "sweep"
           (Report "1" "0.50" "-200" "-0.00")); vm_compute; reflexivity.
Defined.

(** * The files of the directory *)

Section FileNames.

Local Open Scope string_scope.

Lemma str_take_drop (n : nat) (s : string) : str_take n s ++ str_drop n s = s.
Proof.
  revert s. induction n as [|n IH]; intros [|c s]; simpl; try reflexivity.
  rewrite IH. reflexivity.
Qed.

Lemma length_append (a b : string) :
  String.length (a ++ b) = (String.length a + String.length b)%nat.
Proof. induction a as [|c a IH]; simpl; [reflexivity | rewrite IH; reflexivity]. Qed.

Lemma str_drop_append (a b : string) : str_drop (String.length a) (a ++ b) = b.
Proof. induction a as [|c a IH]; simpl; [destruct b; reflexivity | exact IH]. Qed.

Lemma str_take_append (a b : string) : str_take (String.length a) (a ++ b) = a.
Proof.
  induction a as [|c a IH]; simpl; [destruct b; reflexivity | rewrite IH; reflexivity].
Qed.

Lemma append_inv_tail (a b c : string) : a ++ c = b ++ c -> a = b.
Proof.
  intros E.
  assert (L : String.length a = String.length b).
  { apply (f_equal String.length) in E. rewrite !length_append in E. lia. }
  apply (f_equal (str_take (String.length a))) in E.
  rewrite str_take_append in E. rewrite L, str_take_append in E. exact E.
Qed.

(** [filename[-len(format):] == format] says that the name ends with the
    format. *)
Lemma last_chars_suffix (format filename : string) :
  format <> "" ->
  (last_chars (String.length format) filename = format
   <-> exists stem, filename = stem ++ format).
Proof.
  intros Hf. unfold last_chars.
  destruct (String.length format) as [|k] eqn:Ek;
    [destruct format; [congruence | discriminate Ek]|].
  cbn [Nat.eqb]. rewrite <- Ek. split.
  - intros E. exists (str_take (String.length filename - String.length format) filename).
    transitivity (str_take (String.length filename - String.length format) filename
                  ++ str_drop (String.length filename - String.length format) filename).
    + symmetry. apply str_take_drop.
    + rewrite E. reflexivity.
  - intros (stem & ->). rewrite length_append.
    replace (String.length stem + String.length format - String.length format)%nat
      with (String.length stem) by lia.
    apply str_drop_append.
Qed.

Lemma strip_format_append (format stem : string) :
  format <> "" -> strip_format format (stem ++ format) = stem.
Proof.
  intros Hf. unfold strip_format, without_last_chars.
  destruct format as [|c format]; [congruence|]. cbn [truthy].
  set (fmt := String c format).
  replace (String.length fmt =? 0)%nat with false by reflexivity.
  rewrite length_append.
  replace (String.length stem + String.length fmt - String.length fmt)%nat
    with (String.length stem) by lia.
  apply str_take_append.
Qed.

Variable is_dir : string -> bool.

(** X: the files the main loop works on. *)
Theorem good_files_spec (analyse_dir format : string) (files : list string)
    (filename : string) :
  In filename (good_files is_dir analyse_dir format files) <->
  In filename files /\
  is_dir (analyse_dir ++ filename) = false /\
  (format = "" \/ exists stem, filename = stem ++ format).
Proof.
  unfold good_files. destruct format as [|c format]; cbn [truthy].
  - rewrite filter_In, negb_true_iff. intuition.
  - set (fmt := String c format).
    assert (Hf : fmt <> "") by discriminate.
    rewrite filter_In, andb_true_iff, negb_true_iff, String.eqb_eq.
    rewrite (last_chars_suffix fmt filename Hf). intuition congruence.
Qed.

(** X: the name without its format, and the names of the outputs. *)
Theorem strip_format_round_trip (analyse_dir format output_dir : string)
    (files : list string) (f g : string) :
  In f (good_files is_dir analyse_dir format files) ->
  In g (good_files is_dir analyse_dir format files) ->
  strip_format format f ++ format = f /\
  (f <> g ->
   png_path output_dir (strip_format format f)
   <> png_path output_dir (strip_format format g) /\
   txt_path output_dir (strip_format format f)
   <> txt_path output_dir (strip_format format g)).
Proof.
  intros Hf Hg. apply good_files_spec in Hf, Hg.
  destruct Hf as (_ & _ & Hf), Hg as (_ & _ & Hg).
  assert (R : forall x, (format = "" \/ exists stem, x = stem ++ format) ->
                        strip_format format x ++ format = x).
  { intros x [->|(stem & ->)].
    - unfold strip_format. simpl. clear. induction x; simpl; congruence.
    - destruct (string_dec format "") as [->|Hne].
      + unfold strip_format. simpl. clear.
        induction (stem ++ ""); simpl; congruence.
      + rewrite strip_format_append by exact Hne. reflexivity. }
  split; [apply R, Hf|].
  intros Hne. unfold png_path, txt_path.
  split; intros E; apply append_inv_head, append_inv_tail in E;
    apply Hne; rewrite <- (R f Hf), <- (R g Hg), E; reflexivity.
Qed.

End FileNames.
